(** * Prefect: run triggering, provisioning commands, concurrency slots,
      cancel scopes and the stack-inspection utilities

    The development has two parts.  Part I embeds the program: the module
    [prefect/_internal/concurrency/inspection.py] is translated function by
    function, and the collaborators whose code is only exercised by the test
    suite (runner web server, Azure CLI provisioner) or only described by the
    design document (slot manager, cancel scope) are modelled next to it.
    Part II states and proves the properties. *)

From Stdlib Require Import ZArith String Ascii List Lia Bool Sorted.
From Stdlib Require DecimalString HexadecimalString.
From stdpp Require Import gmap strings list fin_maps.

Set Warnings "-register-all".
Open Scope Z_scope.

(* ===================================================================== *)
(** * Part I: the embedding                                               *)
(* ===================================================================== *)

(** ** Python basics shared by all modules *)

Module Py.

(** The exception classes that occur in the modelled code. *)
Inductive PyExc : Type :=
| TypeError (msg : string)
| ValueError (msg : string)
| KeyError (key : string)
| RuntimeError (msg : string)
| CalledProcessError (returncode : Z) (cmd : string).

(** The outcome of a call: a value, or a raised exception. *)
Inductive Res (A : Type) : Type :=
| Ok (a : A)
| Raise (e : PyExc).
Arguments Ok {A} a.
Arguments Raise {A} e.

(** Code that reads and writes a state [S] and may raise. *)
Definition M (S A : Type) : Type := S -> Res A * S.

Definition ret {S A} (a : A) : M S A := fun st => (Ok a, st).

Definition bind {S A B} (m : M S A) (k : A -> M S B) : M S B :=
  fun st =>
    match m st with
    | (Ok a, st') => k a st'
    | (Raise e, st') => (Raise e, st')
    end.

Definition lift {S A} (r : Res A) : M S A := fun st => (r, st).

Definition is_Ok {A} (r : Res A) : bool :=
  match r with Ok _ => true | Raise _ => false end.

(** Characters that Rocq string literals cannot hold directly. *)
Definition nl : string := String "010"%char EmptyString.
Definition tab : string := String "009"%char EmptyString.
Definition dquote : string := String "034"%char EmptyString.

(** [str(n)] for an int. *)
Definition str_of_int (n : Z) : string :=
  DecimalString.NilZero.string_of_int (Z.to_int n).

(** [hex(n)] for an int: sign, [0x], lower-case digits. *)
Definition hex (n : Z) : string :=
  (if n <? 0 then "-0x" else "0x")
    +:+ HexadecimalString.NilZero.string_of_uint (N.to_hex_uint (Z.abs_N n)).

(** [str.isspace] on the ASCII range: tab, line feed, vertical tab, form
    feed, carriage return, the four separators 28..31 and the blank.  Text
    is modelled as ASCII. *)
Definition isspace (c : ascii) : bool :=
  let n := nat_of_ascii c in
  ((9 <=? n) && (n <=? 13) || (28 <=? n) && (n <=? 32))%nat.

(** [s.lstrip()] *)
Fixpoint lstrip (s : string) : string :=
  match s with
  | EmptyString => EmptyString
  | String c rest => if isspace c then lstrip rest else s
  end.

(** [sep.join(parts)] *)
Definition join (sep : string) (parts : list string) : string :=
  String.concat sep parts.

End Py.

Notation "'let*' x := m 'in' k" := (Py.bind m (fun x => k))
  (at level 10, x name, m at level 100, k at level 200).

(** ** The standard-library services [inspection.py] calls

    [linecache.getline] keeps a module-level cache and reads source files;
    the printf-style operator [%] of [str] raises on a malformed format;
    [traceback.print_exc] goes through [linecache] for the source lines of
    the traceback it prints.  None is code of this repository, so they are
    taken as an interface. *)

Class Runtime : Type := {
  (** module dictionaries, [frame.f_globals] *)
  Globals : Type;
  (** the state behind [linecache]: its cache and the files it reads *)
  LineCache : Type;
  (** arbitrary Python objects passed as format arguments *)
  PyObj : Type;
  (** [linecache.getline(filename, lineno, module_globals)] *)
  linecache_getline : string -> Z -> Globals -> LineCache -> string * LineCache;
  (** [message % args] for a tuple [args] *)
  str_mod_tuple : string -> list PyObj -> Py.Res string;
  (** [message % kwargs] for a dict [kwargs] *)
  str_mod_dict : string -> list (string * PyObj) -> Py.Res string;
  (** an exception being handled, with its traceback: [sys.exc_info()] *)
  ExcInfo : Type;
  (** what [traceback.print_exc] does to [linecache] while it formats the
      traceback of that exception: the files of its frames are revalidated
      and their lines fetched *)
  print_exc_linecache : ExcInfo -> LineCache -> LineCache
}.

(** ** [prefect/_internal/concurrency/inspection.py] *)

Module Inspection.
Import Py.

(** A code object.  [co_linestarts] holds the pairs [(offset, line)] that
    [dis.findlinestarts(code)] yields, in the order it yields them. *)
Record Code : Type := mkCode {
  co_filename : string;
  co_name : string;
  co_firstlineno : Z;
  co_linestarts : list (Z * Z)
}.

Definition findlinestarts (code : Code) : list (Z * Z) := co_linestarts code.

Section WithRuntime.
Context `{RT : Runtime}.

(** A frame object; [f_back] is the caller's frame, [None] at the bottom. *)
Inductive Frame : Type := mkFrame {
  f_lineno : option Z;
  f_lasti : Z;
  f_code : Code;
  f_globals : Globals;
  f_back : option Frame
}.

(** [threading.Thread]: [ident] is [None] until the thread is started. *)
Record Thread : Type := mkThread {
  name : string;
  ident : option Z
}.

(** The interpreter state the module reads and writes. *)
Record Interp : Type := mkInterp {
  (** the two settings [trace_on] consults *)
  PREFECT_DEBUG_MODE : bool;
  PREFECT_TEST_MODE : bool;
  (** the memo table of [functools.cache] around [trace_on] *)
  trace_on_cache : option bool;
  (** the text of [round(time.monotonic(), 3)] at this instant *)
  monotonic_repr : string;
  (** [threading.current_thread().name] *)
  current_thread_name : string;
  (** what [traceback.print_exc] writes for the exception being handled *)
  current_exc_text : string;
  (** the exception being handled, [None] outside an [except] block *)
  current_exc : option ExcInfo;
  (** everything written to [sys.stderr], oldest first *)
  stderr : list string;
  (** [sys._current_frames()]: thread ident to topmost frame *)
  current_frames : gmap Z Frame;
  (** the state of the [linecache] module *)
  linecache : LineCache
}.

Definition set_trace_on_cache (c : option bool) (st : Interp) : Interp :=
  mkInterp (PREFECT_DEBUG_MODE st) (PREFECT_TEST_MODE st) c
    (monotonic_repr st) (current_thread_name st) (current_exc_text st)
    (current_exc st)
    (stderr st) (current_frames st) (linecache st).

Definition set_stderr (out : list string) (st : Interp) : Interp :=
  mkInterp (PREFECT_DEBUG_MODE st) (PREFECT_TEST_MODE st) (trace_on_cache st)
    (monotonic_repr st) (current_thread_name st) (current_exc_text st)
    (current_exc st)
    out (current_frames st) (linecache st).

Definition set_linecache (lc : LineCache) (st : Interp) : Interp :=
  mkInterp (PREFECT_DEBUG_MODE st) (PREFECT_TEST_MODE st) (trace_on_cache st)
    (monotonic_repr st) (current_thread_name st) (current_exc_text st)
    (current_exc st)
    (stderr st) (current_frames st) lc.

(** The settings, as the environment may change them between calls. *)
Definition set_settings (debug test : bool) (st : Interp) : Interp :=
  mkInterp debug test (trace_on_cache st)
    (monotonic_repr st) (current_thread_name st) (current_exc_text st)
    (current_exc st)
    (stderr st) (current_frames st) (linecache st).

(** [@functools.cache def trace_on()]: the body runs on the first call only;
    later calls return the memoised value. *)
Definition trace_on : M Interp bool := fun st =>
  match trace_on_cache st with
  | Some b => (Ok b, st)
  | None =>
      let b := PREFECT_DEBUG_MODE st || PREFECT_TEST_MODE st in
      (Ok b, set_trace_on_cache (Some b) st)
  end.

(** [print(text, file=sys.stderr, flush=True)] *)
Definition print_stderr (text : string) : M Interp unit := fun st =>
  (Ok tt, set_stderr (stderr st ++ [text +:+ nl]) st).

(** [traceback.print_exc(file=sys.stderr)]: the text of the exception being
    handled goes to standard error, and formatting its traceback takes the
    source lines of its frames through [linecache].  Outside an [except]
    block there is no traceback and [linecache] is not touched. *)
Definition print_exc : M Interp unit := fun st =>
  (Ok tt,
   set_linecache
     match current_exc st with
     | Some exc => print_exc_linecache exc (linecache st)
     | None => linecache st
     end
     (set_stderr (stderr st ++ [current_exc_text st]) st)).

(** [trace(message, *args, exc_info=False, **kwargs)] *)
Definition trace (message : string) (args : list PyObj) (exc_info : bool)
    (kwargs : list (string * PyObj)) : M Interp unit :=
  let* on := trace_on in
  if on then
    let* prefix := (fun st =>
      (Ok (monotonic_repr st +:+ " | " +:+ current_thread_name st +:+ " | "),
       st)) in
    let* message1 := lift (str_mod_tuple message args) in
    let* message2 := lift (str_mod_dict message1 kwargs) in
    let* _ := print_stderr (prefix +:+ message2) in
    if exc_info then print_exc else ret tt
  else ret tt.

(** The [for] loop of [_f_lineno], with [prev_line] as loop state. *)
Fixpoint _f_lineno_loop (f_lasti prev_line : Z) (starts : list (Z * Z)) : Z :=
  match starts with
  | [] => prev_line
  | (start, next_line) :: rest =>
      if f_lasti <? start then prev_line
      else _f_lineno_loop f_lasti next_line rest
  end.

Definition _f_lineno (frame : Frame) : Z :=
  match f_lineno frame with
  | Some l => l
  | None =>
      let code := f_code frame in
      _f_lineno_loop (f_lasti frame) (co_firstlineno code) (findlinestarts code)
  end.

(** The first half of the rendered entry: file, line and function name. *)
Definition frame_text (frame : Frame) : string :=
  let co := f_code frame in
  "  File " +:+ dquote +:+ co_filename co +:+ dquote +:+ ", line "
    +:+ str_of_int (_f_lineno frame) +:+ ", in " +:+ co_name co.

Definition repr_frame (frame : Frame) : M Interp string := fun st =>
  let co := f_code frame in
  let f_lineno := _f_lineno frame in
  let text := frame_text frame in
  let '(line, lc) :=
    linecache_getline (co_filename co) f_lineno (f_globals frame) (linecache st) in
  (Ok (text +:+ nl +:+ tab +:+ lstrip line), set_linecache lc st).

(** The [while cur_frame:] loop of [call_stack]; [L] is the list built so
    far, to which each rendered frame is appended. *)
Fixpoint call_stack_loop (cur_frame : Frame) (L : list string)
    : M Interp (list string) :=
  match cur_frame with
  | mkFrame _ _ _ _ back =>
      let* entry := repr_frame cur_frame in
      let L' := L ++ [entry] in
      match back with
      | Some caller => call_stack_loop caller L'
      | None => ret L'
      end
  end.

(** [call_stack(frame)]: the loop, then [L[::-1]]. *)
Definition call_stack (frame : Frame) : M Interp (list string) :=
  let* L := call_stack_loop frame [] in
  ret (rev L).

(** [hex(thread.ident)]: [hex(None)] raises [TypeError]. *)
Definition hex_ident (i : option Z) : Res string :=
  match i with
  | Some n => Ok (hex n)
  | None =>
      Raise (TypeError "'NoneType' object cannot be interpreted as an integer")
  end.

(** [frames.get(thread.ident)] *)
Definition frames_get (frames : gmap Z Frame) (i : option Z) : option Frame :=
  match i with
  | Some n => frames !! n
  | None => None
  end.

Definition header (thread_name hex_text : string) : string :=
  "------ Call stack of " +:+ thread_name +:+ " (" +:+ hex_text +:+ ") -----".

(** The [for thread in threads:] loop of [stack_for_threads]. *)
Fixpoint stack_for_threads_loop (frames : gmap Z Frame) (threads : list Thread)
    (lines : list string) : M Interp (list string) :=
  match threads with
  | [] => ret lines
  | thread :: rest =>
      let* h := lift (hex_ident (ident thread)) in
      let lines1 := lines ++ [header (name thread) h] in
      match frames_get frames (ident thread) with
      | Some thread_frames =>
          let* stack := call_stack thread_frames in
          stack_for_threads_loop frames rest (lines1 ++ [join EmptyString stack])
      | None =>
          stack_for_threads_loop frames rest (lines1 ++ ["No stack frames found"])
      end
  end.

(** [stack_for_threads]: the frame mapping is read once, before
    the loop. *)
Definition stack_for_threads (threads : list Thread) : M Interp (list string) :=
  fun st =>
    let frames := current_frames st in
    stack_for_threads_loop frames threads [] st.

(** The frames reachable through [f_back], the given frame first. *)
Fixpoint back_chain (frame : Frame) : list Frame :=
  match frame with
  | mkFrame _ _ _ _ back =>
      frame :: match back with Some caller => back_chain caller | None => [] end
  end.

End WithRuntime.
End Inspection.

(** ** JSON values, as request payloads and command output *)

Module Json.

Inductive Json : Type :=
| JNull
| JBool (b : bool)
| JInt (n : Z)
| JStr (s : string)
| JList (items : list Json)
| JObj (fields : list (string * Json)).

(** [d.get(key)] on the fields of an object. *)
Fixpoint assoc (key : string) (fields : list (string * Json)) : option Json :=
  match fields with
  | [] => None
  | (k, v) :: rest => if String.eqb k key then Some v else assoc key rest
  end.

(** Python truthiness of a decoded JSON value. *)
Definition truthy (j : Json) : bool :=
  match j with
  | JNull => false
  | JBool b => b
  | JInt n => negb (n =? 0)
  | JStr s => negb (String.eqb s EmptyString)
  | JList items => match items with [] => false | _ => true end
  | JObj fields => match fields with [] => false | _ => true end
  end.

End Json.

(** ** The runner's web server (trigger surface)

    [prefect/runner/server.py] is not among the sources; only its test
    module [tests/runner/test_webserver.py] is.  The server is modelled from
    the design document, section 6, and from what the tests exercise. *)

Module Webserver.
Import Json.

(** Modelled from the spec: the schema a parameter payload is validated
    against.  The schema language is missing from the sources; it covers the
    parameter types the flows of the test module declare ([str], [int],
    [bool], [List[...]] and nested models). *)
Inductive Schema : Type :=
| SString
| SInteger
| SBoolean
| SArray (items : Schema)
| SObject (properties : list (string * Schema)) (required : list string).

(** Modelled from the spec: schema validation of a payload, missing from the
    sources.  A value conforms when it has the declared JSON type; an object
    conforms when every required property is present and every declared
    property that is present conforms. *)
Fixpoint validate (schema : Schema) (payload : Json) : bool :=
  match schema, payload with
  | SString, JStr _ => true
  | SInteger, JInt _ => true
  | SBoolean, JBool _ => true
  | SArray items, JList values => forallb (validate items) values
  | SObject properties required, JObj fields =>
      forallb (fun r => match assoc r fields with Some _ => true | None => false end)
        required
      && (fix props (ps : list (string * Schema)) : bool :=
            match ps with
            | [] => true
            | (k, s) :: ps' =>
                match assoc k fields with
                | Some v => validate s v
                | None => true
                end && props ps'
            end) properties
  | _, _ => false
  end.

(** Modelled from the spec: a deployment registered with the runner (the
    class is missing from the sources): its id and the schema of its flow's
    parameters. *)
Record Deployment : Type := mkDeployment {
  deployment_id : string;
  parameter_openapi_schema : Schema
}.

(** Modelled from the spec: the runner's registry of deployments, keyed by
    deployment id ([Runner] is missing from the sources). *)
Record Runner : Type := mkRunner {
  deployments : gmap string Deployment
}.

(** Modelled from the spec: [Runner.add_flow], missing from the sources, as
    the tests call it: registers the flow's deployment and returns its id. *)
Definition add_flow (parameters : Schema) (id : string) (runner : Runner)
    : string * Runner :=
  (id, mkRunner (<[id := mkDeployment id parameters]> (deployments runner))).

(** Modelled from the spec: a route of the server (FastAPI's route objects
    are missing from the sources): path, accepted method and the deployment
    whose runs it creates. *)
Record Route : Type := mkRoute {
  path : string;
  method : string;
  route_deployment : Deployment
}.

(** Modelled from the spec: the path of a deployment's run route, built by
    the missing [build_server]; it is the path the tests post to,
    [/deployment/{deployment_id}/run] (test_webserver.py, lines 54, 67, 93). *)
Definition run_path (id : string) : string :=
  "/deployment/" +:+ id +:+ "/run".

(** The path as the design document words it: [/run/{id}]. *)
Definition spec_run_path (id : string) : string := "/run/" +:+ id.

(** Modelled from the spec: [build_server], missing from the sources: one
    POST route per registered deployment, at the path the tests expect. *)
Definition build_server (runner : Runner) : list Route :=
  map (fun '(id, d) => mkRoute (run_path id) "POST" d)
      (map_to_list (deployments runner)).

(** Modelled from the spec: the proposal the run endpoint hands to the
    engine, Pending to Scheduled, for a new run of a deployment. *)
Record Proposal : Type := mkProposal {
  proposal_run_id : Z;
  proposal_deployment : string;
  proposal_parameters : Json
}.

(** Modelled from the spec: what the engine holds on behalf of the trigger
    surface: the proposals enqueued so far and the next run id. *)
Record Engine : Type := mkEngine {
  enqueued : list Proposal;
  next_run_id : Z
}.

(** Modelled from the spec: the answer to a request, as far as the tests
    look at it: the status code and, on success, the run id. *)
Record Response : Type := mkResponse {
  status_code : Z;
  response_run_id : option Z
}.

(** Modelled from the spec: the endpoint behind a run route, missing from the
    sources: [success enqueues a Pending->Scheduled proposal via the engine
    and returns 201 with the run id; schema failure returns 400]. *)
Definition create_flow_run_for_deployment (d : Deployment) (body : Json)
    (engine : Engine) : Response * Engine :=
  if validate (parameter_openapi_schema d) body then
    let id := next_run_id engine in
    (mkResponse 201 (Some id),
     mkEngine (enqueued engine ++ [mkProposal id (deployment_id d) body])
              (id + 1))
  else (mkResponse 400 None, engine).

(** Modelled from the spec: request dispatch of the test client's
    [client.post(path, json=body)]: the first route with that path and
    method answers; without one the answer is 404. *)
Definition post (webserver : list Route) (url : string) (body : Json)
    (engine : Engine) : Response * Engine :=
  match List.find (fun r => String.eqb (path r) url && String.eqb (method r) "POST")
          webserver with
  | Some r => create_flow_run_for_deployment (route_deployment r) body engine
  | None => (mkResponse 404 None, engine)
  end.

(** *** The checks of [test_runners_deployment_run_routes_exist] *)

(** [s.endswith(suffix)] *)
Definition endswith (suffix s : string) : bool :=
  String.prefix (String.rev suffix) (String.rev s).

(** [s.split("/")]: the pieces between slashes; [cur] is the piece being
    read. *)
Fixpoint split_slash (cur : string) (s : string) : list string :=
  match s with
  | EmptyString => [cur]
  | String c rest =>
      if Ascii.eqb c "/"%char then cur :: split_slash EmptyString rest
      else split_slash (cur +:+ String c EmptyString) rest
  end.

(** Lines 40-44: the routes whose path starts with [/deployment] and ends
    with [/run]. *)
Definition deployment_run_routes (routes : list Route) : list Route :=
  List.filter (fun r => String.prefix "/deployment" (path r)
                        && endswith "/run" (path r)) routes.

(** Lines 47-55: every such route names one of the deployments, and every
    deployment has its route. *)
Definition routes_exist_check (routes : list Route) (deployment_ids : list string)
    : bool :=
  let deployment_run_paths := map path (deployment_run_routes routes) in
  forallb (fun route =>
             let id_ := nth 2 (split_slash EmptyString (path route)) EmptyString in
             existsb (String.eqb id_) deployment_ids)
          (deployment_run_routes routes)
  && forallb (fun id_ => existsb (String.eqb (run_path id_)) deployment_run_paths)
       deployment_ids.

(** The flows the tests register. *)
Definition flow_f : Schema := SObject [("verb", SString)] [].

Definition model_A : Schema := SObject [("a", SInteger)] [].
Definition model_B : Schema := SObject [("a", model_A); ("b", SBoolean)] [].
Definition complex_flow : Schema :=
  SObject [("x", SInteger); ("y", SString); ("z", SArray SBoolean);
           ("a", model_A); ("b", model_B)] ["x"].

End Webserver.

(** ** The Azure container-instance provisioner and its command capability

    [prefect/infrastructure/provisioners/container_instance.py] is not among
    the sources; its test module is.  The capability is modelled from the
    design document, section 6, and the provisioner step from the calls the
    tests expect. *)

Module Provisioner.
Import Py Json.

(** Modelled from the spec: what a finished command reports to the missing
    [run_command]: exit code, output text and the output decoded as JSON. *)
Record Completed : Type := mkCompleted {
  returncode : Z;
  stdout : string;
  stdout_json : Json
}.

(** Modelled from the spec: the result of the missing [run_command]:
    nothing, the output text, or the decoded JSON output. *)
Inductive Output : Type :=
| ONone
| OText (s : string)
| OJson (j : Json).

Definition output_truthy (o : Output) : bool :=
  match o with
  | ONone => false
  | OText s => negb (String.eqb s EmptyString)
  | OJson j => truthy j
  end.

(** Modelled from the spec: the signature of the capability,
    [run_command(cmd, ignore_if_exists, return_json, success_message,
    failure_message) -> result], over whatever state its implementation
    keeps; the tests put a mock in its place. *)
Definition RunCommand (S : Type) : Type :=
  string -> bool -> bool -> option string -> option string -> M S Output.

(** Modelled from the spec: the environment behind the capability, missing
    from the sources: how each command line ends, and the console that
    receives the messages. *)
Record Cli : Type := mkCli {
  shell : string -> Completed;
  console : list string
}.

Definition console_print (message : option string) (cli : Cli) : Cli :=
  match message with
  | Some text => mkCli (shell cli) (console cli ++ [text])
  | None => cli
  end.

(** Modelled from the spec: [AzureCLI.run_command], missing from the
    sources: [run_command(cmd, ignore_if_exists, return_json,
    success_message, failure_message) -> result, raising on nonzero exit
    unless ignore_if_exists]. *)
Definition run_command : RunCommand Cli :=
  fun cmd ignore_if_exists return_json success_message failure_message cli =>
    let done := shell cli cmd in
    if returncode done =? 0 then
      (Ok (if return_json then OJson (stdout_json done) else OText (stdout done)),
       console_print success_message cli)
    else if ignore_if_exists then (Ok ONone, cli)
    else (Raise (CalledProcessError (returncode done) cmd),
          console_print failure_message cli).

(** Modelled from the spec: the provisioner's settings that the command
    lines of the tests show ([ContainerInstancePushProvisioner] is missing
    from the sources). *)
Record ContainerInstancePushProvisioner : Type := mkProvisioner {
  _resource_group_name : string;
  _location : string;
  _subscription_id : string
}.

(** Modelled from the spec: the command lines and messages of the missing
    [_create_resource_group], letter for letter as the tests expect them. *)
Definition group_exists_cmd (p : ContainerInstancePushProvisioner) : string :=
  "az group exists --name " +:+ _resource_group_name p
    +:+ " --subscription " +:+ _subscription_id p.

Definition group_create_cmd (p : ContainerInstancePushProvisioner) : string :=
  "az group create --name '" +:+ _resource_group_name p
    +:+ "' --location '" +:+ _location p
    +:+ "' --subscription '" +:+ _subscription_id p +:+ "'".

Definition group_created_message (p : ContainerInstancePushProvisioner) : string :=
  "Resource group '" +:+ _resource_group_name p +:+ "' created successfully".

Definition group_failed_message (p : ContainerInstancePushProvisioner) : string :=
  "Failed to create resource group '" +:+ _resource_group_name p
    +:+ "' in subscription '" +:+ _subscription_id p +:+ "'".

(** Modelled from the spec: [_create_resource_group], missing from the
    sources, as the three resource-group tests pin it down: ask whether the
    group exists; when it does, stop after that one call; otherwise create
    it.  Nothing is caught, so whatever [run_command] raises leaves the step. *)
Definition _create_resource_group {S} (run_command : RunCommand S)
    (p : ContainerInstancePushProvisioner) : M S unit :=
  let* exists_ := run_command (group_exists_cmd p) false true None None in
  if output_truthy exists_ then ret tt
  else
    let* _ := run_command (group_create_cmd p) true false
                (Some (group_created_message p)) (Some (group_failed_message p)) in
    ret tt.

(** *** The mock the tests install in place of the capability *)

(** One recorded call: the command line and the keyword arguments. *)
Record Call : Type := mkCall {
  call_cmd : string;
  call_ignore_if_exists : bool;
  call_return_json : bool;
  call_success_message : option string;
  call_failure_message : option string
}.

(** [AsyncMock] with a [side_effect] list: the outcomes still to be handed
    out, and the calls seen so far. *)
Record Mock : Type := mkMock {
  side_effect : list (Res Output);
  mock_calls : list Call
}.

Definition mock_run_command : RunCommand Mock :=
  fun cmd ignore_if_exists return_json success_message failure_message mock =>
    let seen := mock_calls mock
                  ++ [mkCall cmd ignore_if_exists return_json
                        success_message failure_message] in
    match side_effect mock with
    | outcome :: later => (outcome, mkMock later seen)
    | [] => (Raise (RuntimeError "StopAsyncIteration"), mkMock [] seen)
    end.

(** The fixture of the test module: resource group of the default push
    pool, location and subscription not yet selected. *)
Definition test_provisioner : ContainerInstancePushProvisioner :=
  mkProvisioner "prefect-aci-push-pool-rg" "None" "None".

(** [CalledProcessError(1, "cmd", output="output", stderr="error")] *)
Definition test_error : PyExc := CalledProcessError 1 "cmd".

End Provisioner.

(** ** ConcurrencySlotManager

    Described by the design document, sections 3 and 4.4; no source file of
    it is present. *)

Module SlotManager.

(** Modelled from the spec: [ConcurrencyLimit: key, total slots, set of
    holder run ids]; the key is the key of the manager's table. *)
Record ConcurrencyLimit : Type := mkLimit {
  total : nat;
  holders : gset string
}.

(** Modelled from the spec: the manager's table and its log. *)
Record Manager : Type := mkManager {
  limits : gmap string ConcurrencyLimit;
  log : list string
}.

(** Modelled from the spec: the held count of [key], the number of its
    holders. *)
Definition held (key : string) (m : Manager) : nat :=
  match limits m !! key with
  | Some l => size (holders l)
  | None => 0%nat
  end.

(** Modelled from the spec: the total number of slots of [key], if the key
    has a limit. *)
Definition slots (key : string) (m : Manager) : option nat :=
  total <$> limits m !! key.

(** Modelled from the spec: [acquire(key, run_id) -> bool]: non-blocking
    reservation attempt; false on exhaustion.  The holders form a set, so a
    holder that acquires again is not counted twice. *)
Definition acquire (key run_id : string) (m : Manager) : bool * Manager :=
  match limits m !! key with
  | Some l =>
      if (size (holders l) <? total l)%nat then
        (true,
         mkManager (<[key := mkLimit (total l) ({[run_id]} ∪ holders l)]> (limits m))
                   (log m))
      else (false, m)
  | None => (false, m)
  end.

(** Modelled from the spec: [release(key, run_id)]: returns a slot; logs
    (not fatal) if [run_id] was not a holder. *)
Definition release (key run_id : string) (m : Manager) : Manager :=
  match limits m !! key with
  | Some l =>
      if bool_decide (run_id ∈ holders l) then
        mkManager (<[key := mkLimit (total l) (holders l ∖ {[run_id]})]> (limits m))
                  (log m)
      else mkManager (limits m) (log m ++ ["release by a run that holds no slot"])
  | None => mkManager (limits m) (log m ++ ["release by a run that holds no slot"])
  end.

(** The invariant of one key: it has [N] slots and at most [N] are held. *)
Definition within (key : string) (N : nat) (m : Manager) : Prop :=
  slots key m = Some N /\ (held key m <= N)%nat.

(** Modelled from the spec: one operation of an interleaving; the design
    document requires acquire and release to be atomic. *)
Inductive Op : Type :=
| Acquire (key run_id : string)
| Release (key run_id : string).

Definition step (op : Op) (m : Manager) : Manager :=
  match op with
  | Acquire key run_id => snd (acquire key run_id m)
  | Release key run_id => release key run_id m
  end.

(** The manager after a sequence of operations, first operation first. *)
Definition run (ops : list Op) (m : Manager) : Manager :=
  fold_left (fun m op => step op m) ops m.

End SlotManager.

(** ** CancelScope

    Described by the design document, sections 3 and 4.2; no source file of
    it is present. *)

Module Cancellation.

(** Modelled from the spec: [Call ... state in {pending, running, cancelled,
    finished}]. *)
Inductive CallState : Type :=
| Pending
| Running
| Cancelled
| Finished.

(** Modelled from the spec: a Call, as far as cancellation sees it: the
    scope that owns it, its state, and whether cooperative cancellation has
    been requested of it. *)
Record Call : Type := mkCall {
  owning_scope : nat;
  call_state : CallState;
  cancel_requested : bool
}.

(** Modelled from the spec: [CancelScope: id, nullable parent, optional
    deadline, cancelled flag]; the id is the key of the store, and the Calls
    registered under a scope are those that name it as owner. *)
Record CancelScope : Type := mkScope {
  parent : option nat;
  deadline : option Z;
  cancelled : bool
}.

(** Modelled from the spec: all scopes and all Calls, by id. *)
Record Store : Type := mkStore {
  scopes : gmap nat CancelScope;
  calls : gmap nat Call
}.

(** Modelled from the spec: whether scope [t] is [root] or one of its
    descendants: the walk up the parent links, at most [fuel] links long. *)
Fixpoint in_subtree (sc : gmap nat CancelScope) (root : nat) (fuel : nat)
    (t : nat) : bool :=
  if (t =? root)%nat then true
  else
    match fuel with
    | O => false
    | S fuel' =>
        match sc !! t with
        | Some s =>
            match parent s with
            | Some p => in_subtree sc root fuel' p
            | None => false
            end
        | None => false
        end
    end.

(** A chain of parent links in a tree is no longer than the number of
    scopes. *)
Definition below (st : Store) (root t : nat) : bool :=
  in_subtree (scopes st) root (size (scopes st)) t.

Definition mark_cancelled (s : CancelScope) : CancelScope :=
  mkScope (parent s) (deadline s) true.

(** Modelled from the spec: the request a cancelled scope makes of one of its
    Calls: [requests cooperative cancellation on every non-finished
    registered Call]; a finished Call keeps its result. *)
Definition request_cancel (c : Call) : Call :=
  match call_state c with
  | Finished => c
  | _ => mkCall (owning_scope c) (call_state c) true
  end.

(** Modelled from the spec: [cancel()]: [marks the scope and all descendants
    cancelled, and requests cooperative cancellation on every non-finished
    registered Call]. *)
Definition cancel (root : nat) (st : Store) : Store :=
  mkStore
    (map_imap (fun t s => Some (if below st root t then mark_cancelled s else s))
       (scopes st))
    (map_imap (fun _ c =>
                 Some (if below st root (owning_scope c) then request_cancel c
                       else c))
       (calls st)).

(** What an observer sees of a store: which scopes are cancelled, and which
    Calls have been asked to cancel, with their states. *)
Definition scope_cancelled (st : Store) (t : nat) : option bool :=
  cancelled <$> scopes st !! t.

Definition requests_delivered (st : Store) : gmap nat bool :=
  cancel_requested <$> calls st.

End Cancellation.

(** ** A concrete runtime, for running the embedding on examples *)

Module SimpleRuntime.
Import Py.

(** [linecache]: the cached lines per file name, and the files on disk. *)
Record Lines : Type := mkLines {
  cache : gmap string (list string);
  files : gmap string (list string)
}.

(** [linecache.getlines]: cached lines win; an uncached file is read and
    cached; an unreadable one yields no lines. *)
Definition getlines (filename : string) (lc : Lines) : list string * Lines :=
  match cache lc !! filename with
  | Some ls => (ls, lc)
  | None =>
      match files lc !! filename with
      | Some ls => (ls, mkLines (<[filename := ls]> (cache lc)) (files lc))
      | None => ([], lc)
      end
  end.

(** [linecache.getline]: line [lineno], counted from 1, or the empty string. *)
Definition getline (filename : string) (lineno : Z) (module_globals : unit)
    (lc : Lines) : string * Lines :=
  let '(ls, lc') := getlines filename lc in
  (if (1 <=? lineno) && (lineno <=? Z.of_nat (length ls))
   then nth (Z.to_nat (lineno - 1)) ls EmptyString
   else EmptyString,
   lc').

Definition cons_char (c : ascii) (r : Res string) : Res string :=
  match r with
  | Ok s => Ok (String c s)
  | Raise e => Raise e
  end.

Definition prepend (p : string) (r : Res string) : Res string :=
  match r with
  | Ok s => Ok (p +:+ s)
  | Raise e => Raise e
  end.

(** [fmt % args] for a tuple of [str] objects, on the fragment whose
    conversions are [%s] and [%%]; any other conversion character is
    answered like an unknown one. *)
Fixpoint format_tuple (fmt : string) (args : list string) : Res string :=
  match fmt with
  | EmptyString =>
      match args with
      | [] => Ok EmptyString
      | _ :: _ =>
          Raise (TypeError "not all arguments converted during string formatting")
      end
  | String c rest =>
      if Ascii.eqb c "%"%char then
        match rest with
        | EmptyString => Raise (ValueError "incomplete format")
        | String d rest' =>
            if Ascii.eqb d "%"%char then cons_char "%"%char (format_tuple rest' args)
            else if Ascii.eqb d "s"%char then
              match args with
              | a :: args' => prepend a (format_tuple rest' args')
              | [] => Raise (TypeError "not enough arguments for format string")
              end
            else Raise (ValueError "unsupported format character")
        end
      else cons_char c (format_tuple rest args)
  end.

(** [fmt % kwargs] for a dict, on the fragment whose only conversion is
    [%%]; any other conversion character is answered like an unknown one. *)
Fixpoint format_dict (fmt : string) (kwargs : list (string * string))
    : Res string :=
  match fmt with
  | EmptyString => Ok EmptyString
  | String c rest =>
      if Ascii.eqb c "%"%char then
        match rest with
        | EmptyString => Raise (ValueError "incomplete format")
        | String d rest' =>
            if Ascii.eqb d "%"%char then cons_char "%"%char (format_dict rest' kwargs)
            else Raise (ValueError "unsupported format character")
        end
      else cons_char c (format_dict rest kwargs)
  end.

(** [linecache.checkcache(filename)] and a fetch of the file: what is
    cached gives way to the file on disk; a file that is gone leaves the
    cache. *)
Definition refresh (lc : Lines) (filename : string) : Lines :=
  match files lc !! filename with
  | Some ls => mkLines (<[filename := ls]> (cache lc)) (files lc)
  | None => mkLines (delete filename (cache lc)) (files lc)
  end.

(** Formatting a traceback: the files of its frames, each refreshed. *)
Definition format_traceback (tb_files : list string) (lc : Lines) : Lines :=
  fold_left refresh tb_files lc.

Definition simple_runtime : Runtime := {|
  Globals := unit;
  LineCache := Lines;
  PyObj := string;
  linecache_getline := getline;
  str_mod_tuple := format_tuple;
  str_mod_dict := format_dict;
  ExcInfo := list string;
  print_exc_linecache := format_traceback
|}.

End SimpleRuntime.

(** ** Example data *)

Module Examples.
Import Py Inspection SimpleRuntime.

Definition code_main : Code :=
  mkCode "flow.py" "main" 10 [(0, 10); (4, 11); (12, 13)].

Definition code_helper : Code :=
  mkCode "flow.py" "helper" 1 [(0, 1); (6, 2)].

(** The bottom frame, in [main], stopped at offset 8. *)
Definition frame_main : Frame (RT := simple_runtime) :=
  mkFrame (RT := simple_runtime) None 8 code_main tt None.

(** The frame of [helper], called from [main]; its line number is known. *)
Definition frame_helper : Frame (RT := simple_runtime) :=
  mkFrame (RT := simple_runtime) (Some 2) 6 code_helper tt (Some frame_main).

Definition flow_py : list string :=
  ["def helper():"; "    return 1"; EmptyString; EmptyString; EmptyString;
   EmptyString; EmptyString; EmptyString; EmptyString;
   "def main():"; "    x = helper()"; EmptyString; "    return x"].

Definition lines_on_disk : Lines := mkLines ∅ {[ "flow.py" := flow_py ]}.

(** The same file name with other text already cached. *)
Definition lines_stale : Lines :=
  mkLines {[ "flow.py" := ["# old"; "# text"] ]} {[ "flow.py" := flow_py ]}.

Definition interp0 : Interp (RT := simple_runtime) :=
  mkInterp (RT := simple_runtime) true false None "12.5" "MainThread"
    "NoneType: None" None []
    {[ 1 := frame_helper ]} lines_on_disk.

(** Neither setting is on and nothing is memoised yet. *)
Definition interp_quiet : Interp (RT := simple_runtime) :=
  mkInterp (RT := simple_runtime) false false None "12.5" "MainThread"
    "NoneType: None" None []
    {[ 1 := frame_helper ]} lines_on_disk.

Definition interp_stale : Interp (RT := simple_runtime) :=
  mkInterp (RT := simple_runtime) true false None "12.5" "MainThread"
    "NoneType: None" None []
    {[ 1 := frame_helper ]} lines_stale.

Definition thread_main : Thread := mkThread "MainThread" (Some 1).
Definition thread_idle : Thread := mkThread "Worker" (Some 255).
Definition thread_unstarted : Thread := mkThread "Fresh" None.

(** A runner with the flow [f] of the tests deployed once, and one with it
    deployed three times under different ids. *)
Definition runner1 : Webserver.Runner :=
  snd (Webserver.add_flow Webserver.flow_f "d1" (Webserver.mkRunner ∅)).

Definition runner3 : Webserver.Runner :=
  snd (Webserver.add_flow Webserver.flow_f "d3"
         (snd (Webserver.add_flow Webserver.flow_f "d2" runner1))).

(** A runner with the flow [complex_flow] of the tests deployed. *)
Definition runner_complex : Webserver.Runner :=
  snd (Webserver.add_flow Webserver.complex_flow "c1" (Webserver.mkRunner ∅)).

Definition engine0 : Webserver.Engine := Webserver.mkEngine [] 1.

(** A server that exposed the run endpoint of [d1] at the path of the
    design document. *)
Definition spec_worded_server : list Webserver.Route :=
  [Webserver.mkRoute (Webserver.spec_run_path "d1") "POST"
     (Webserver.mkDeployment "d1" Webserver.flow_f)].

(** One key with a single slot, nobody holding it. *)
Definition one_slot : SlotManager.Manager :=
  SlotManager.mkManager {[ "tag" := SlotManager.mkLimit 1 ∅ ]} [].

End Examples.

(** ** Reference formulations

    The properties of Part II compare the translated loops with these
    definitions, which follow the wording of the properties. *)

Module Reference.
Import Py Inspection.

Section WithRuntime.
Context `{RT : Runtime}.

(** [f] applied to each element in turn, the state threaded through. *)
Fixpoint mapM {A B} (f : A -> M Interp B) (l : list A) : M Interp (list B) :=
  match l with
  | [] => ret []
  | x :: rest =>
      let* y := f x in
      let* ys := mapM f rest in
      ret (y :: ys)
  end.

(** The value [trace_on()] returns in a state: the memoised answer if there
    is one, otherwise whether one of the two settings is on now. *)
Definition trace_on_value (st : Interp) : bool :=
  match trace_on_cache st with
  | Some b => b
  | None => PREFECT_DEBUG_MODE st || PREFECT_TEST_MODE st
  end.

(** [message % args % kwargs], the two formatting steps of [trace]. *)
Definition format_message (message : string) (args : list PyObj)
    (kwargs : list (string * PyObj)) : Res string :=
  match str_mod_tuple message args with
  | Ok message1 => str_mod_dict message1 kwargs
  | Raise e => Raise e
  end.

Definition trace_prefix (st : Interp) : string :=
  monotonic_repr st +:+ " | " +:+ current_thread_name st +:+ " | ".

(** The header line of a started thread. *)
Definition thread_header (thread : Thread) : string :=
  match ident thread with
  | Some i => header (name thread) (hex i)
  | None => EmptyString
  end.

(** The second entry of a thread: its joined call stack, or the literal. *)
Definition thread_body (frames : gmap Z Frame) (thread : Thread)
    : M Interp string :=
  match frames_get frames (ident thread) with
  | Some frame =>
      let* stack := call_stack frame in
      ret (join EmptyString stack)
  | None => ret "No stack frames found"
  end.

(** Two entries per thread, in argument order. *)
Fixpoint thread_entries (frames : gmap Z Frame) (threads : list Thread)
    : M Interp (list string) :=
  match threads with
  | [] => ret []
  | thread :: rest =>
      let* body := thread_body frames thread in
      let* more := thread_entries frames rest in
      ret (thread_header thread :: body :: more)
  end.

(** The interpreter differs from [st] in the state of [linecache] at most. *)
Definition only_linecache_written (st st' : Interp) : Prop :=
  st' = set_linecache (linecache st') st.

(** A computation reads nothing of the interpreter but [linecache]: run
    from two states with the same [linecache], it answers the same and
    leaves the same [linecache]. *)
Definition reads_linecache_only {A} (m : M Interp A) : Prop :=
  forall st1 st2, linecache st1 = linecache st2 ->
    fst (m st1) = fst (m st2)
    /\ linecache (snd (m st1)) = linecache (snd (m st2)).

(** A computation writes nothing of the interpreter but [linecache]. *)
Definition writes_linecache_only {A} (m : M Interp A) : Prop :=
  forall st, only_linecache_written st (snd (m st)).

Definition confined {A} (m : M Interp A) : Prop :=
  reads_linecache_only m /\ writes_linecache_only m.

End WithRuntime.
End Reference.

(** ** Further example data *)

Module MoreExamples.
Import Inspection SimpleRuntime.

(** A frame whose line starts are not in offset order, stopped at offset 5. *)
Definition frame_unordered : Frame (RT := simple_runtime) :=
  mkFrame (RT := simple_runtime) None 5
    (mkCode "flow.py" "main" 1 [(0, 1); (10, 2); (4, 3)]) tt None.

End MoreExamples.

(** ** Predicates on text used by further properties *)

Module Text.

(** Every character of [s] is whitespace in the sense of [Py.isspace]. *)
Fixpoint all_space (s : string) : bool :=
  match s with
  | EmptyString => true
  | String c rest => Py.isspace c && all_space rest
  end.

(** [s] begins with a whitespace character. *)
Definition starts_with_space (s : string) : bool :=
  match s with
  | EmptyString => false
  | String c _ => Py.isspace c
  end.

(** [s] holds no slash. *)
Fixpoint no_slash (s : string) : bool :=
  match s with
  | EmptyString => true
  | String c rest => negb (Ascii.eqb c "/"%char) && no_slash rest
  end.

End Text.

(* ===================================================================== *)
(** * Part II: properties                                                 *)
(* ===================================================================== *)

(** ** The laws of the state-and-exception monad *)

Module PyFacts.
Import Py.

Lemma bind_assoc {S A B C} (m : M S A) (f : A -> M S B) (g : B -> M S C) st :
  bind (bind m f) g st = bind m (fun a => bind (f a) g) st.
Proof. unfold bind. destruct (m st) as [[a|e] st']; reflexivity. Qed.

Lemma bind_ret_l {S A B} (a : A) (f : A -> M S B) st :
  bind (ret a) f st = f a st.
Proof. reflexivity. Qed.

Lemma bind_cong {S A B} (m : M S A) (f g : A -> M S B) st :
  (forall a st', f a st' = g a st') -> bind m f st = bind m g st.
Proof.
  intros H. unfold bind. destruct (m st) as [[a|e] st']; [apply H | reflexivity].
Qed.

Lemma bind_Ok {S A B} (m : M S A) (f : A -> M S B) st a st' :
  m st = (Ok a, st') -> bind m f st = f a st'.
Proof. intros H. unfold bind. rewrite H. reflexivity. Qed.

Lemma bind_Raise {S A B} (m : M S A) (f : A -> M S B) st e st' :
  m st = (Raise e, st') -> bind m f st = (Raise e, st').
Proof. intros H. unfold bind. rewrite H. reflexivity. Qed.

End PyFacts.

(** ** The stack-inspection utilities *)

Module InspectionFacts.
Import PyFacts.
Import Py Inspection Reference.

Section WithRuntime.
Context `{RT : Runtime}.

(** Induction along [f_back]. *)
Lemma Frame_back_ind (P : Frame -> Prop) :
  (forall l i c g, P (mkFrame l i c g None)) ->
  (forall l i c g caller, P caller -> P (mkFrame l i c g (Some caller))) ->
  forall frame, P frame.
Proof.
  intros Hbottom Hcall. fix IH 1.
  intros [l i c g [caller|]].
  - apply Hcall, IH.
  - apply Hbottom.
Qed.

Lemma set_linecache_twice lc lc' (st : Interp) :
  set_linecache lc (set_linecache lc' st) = set_linecache lc st.
Proof. reflexivity. Qed.

Lemma set_linecache_same (st : Interp) : set_linecache (linecache st) st = st.
Proof. destruct st; reflexivity. Qed.

Lemma only_linecache_written_refl (st : Interp) : only_linecache_written st st.
Proof. unfold only_linecache_written. symmetry. apply set_linecache_same. Qed.

Lemma only_linecache_written_trans (st1 st2 st3 : Interp) :
  only_linecache_written st1 st2 -> only_linecache_written st2 st3 ->
  only_linecache_written st1 st3.
Proof.
  unfold only_linecache_written. intros H12 H23.
  rewrite H23 at 1. rewrite H12. reflexivity.
Qed.

(** *** The line-number loop *)

Lemma _f_lineno_loop_cases (lasti : Z) (starts : list (Z * Z)) :
  forall prev,
    StronglySorted Z.lt (map fst starts) ->
    (_f_lineno_loop lasti prev starts = prev
     /\ Forall (fun p => lasti < fst p) starts)
    \/ (exists start line,
          In (start, line) starts /\ start <= lasti
          /\ (forall s' l', In (s', l') starts -> s' <= lasti -> s' <= start)
          /\ _f_lineno_loop lasti prev starts = line).
Proof.
  induction starts as [|[s l] rest IH]; intros prev Hsorted; simpl.
  - left. split; [reflexivity | constructor].
  - simpl in Hsorted. apply StronglySorted_inv in Hsorted as [Hrest Hlt].
    destruct (Z.ltb_spec lasti s) as [Hbefore | Hreached].
    + left. split; [reflexivity |]. constructor; [exact Hbefore |].
      rewrite List.Forall_forall in Hlt |- *. intros [s' l'] Hin. simpl.
      assert (s < s') by (apply Hlt, in_map_iff; exists (s', l'); auto).
      lia.
    + right. destruct (IH l Hrest) as [[Heq Hall] | (start & line & Hin & Hle & Hmax & Heq)].
      * exists s, l. repeat split; [left; reflexivity | exact Hreached | | exact Heq].
        intros s' l' [Hhead | Htail] Hs'.
        -- injection Hhead as Hs Hl. lia.
        -- rewrite List.Forall_forall in Hall. specialize (Hall _ Htail). simpl in Hall. lia.
      * exists start, line. repeat split; [right; exact Hin | exact Hle | | exact Heq].
        intros s' l' [Hhead | Htail] Hs'.
        -- injection Hhead as Hs Hl.
           rewrite List.Forall_forall in Hlt.
           assert (s < start) by (apply Hlt, in_map_iff; exists (start, line); auto).
           lia.
        -- eapply Hmax; eauto.
Qed.

(** *** Rendering never raises and writes [linecache] only *)

Lemma repr_frame_eq (frame : Frame) (st : Interp) :
  exists line lc,
    linecache_getline (co_filename (f_code frame)) (_f_lineno frame)
      (f_globals frame) (linecache st) = (line, lc)
    /\ repr_frame frame st
       = (Ok (frame_text frame +:+ nl +:+ tab +:+ lstrip line), set_linecache lc st).
Proof.
  unfold repr_frame.
  destruct (linecache_getline _ _ _ _) as [line lc].
  exists line, lc. split; reflexivity.
Qed.

Lemma repr_frame_frame (frame : Frame) (st : Interp) :
  exists text, fst (repr_frame frame st) = Ok text
    /\ only_linecache_written st (snd (repr_frame frame st)).
Proof.
  destruct (repr_frame_eq frame st) as (line & lc & _ & ->).
  eexists. split; [reflexivity | reflexivity].
Qed.

Lemma repr_frame_reads (frame : Frame) (st1 st2 : Interp) :
  linecache st1 = linecache st2 ->
  fst (repr_frame frame st1) = fst (repr_frame frame st2)
  /\ linecache (snd (repr_frame frame st1)) = linecache (snd (repr_frame frame st2)).
Proof.
  intros Hlc. unfold repr_frame. rewrite Hlc.
  destruct (linecache_getline _ _ _ _) as [line lc]. split; reflexivity.
Qed.

(** *** Computations confined to [linecache] compose *)

Lemma confined_ret {A} (a : A) : confined (ret a).
Proof.
  split.
  - intros st1 st2 H. split; [reflexivity | exact H].
  - intros st. apply only_linecache_written_refl.
Qed.

Lemma confined_lift {A} (r : Res A) : confined (lift r).
Proof.
  split.
  - intros st1 st2 H. split; [reflexivity | exact H].
  - intros st. apply only_linecache_written_refl.
Qed.

Lemma confined_bind {A B} (m : M Interp A) (k : A -> M Interp B) :
  confined m -> (forall a, confined (k a)) -> confined (bind m k).
Proof.
  intros [Hmr Hmw] Hk. split.
  - intros st1 st2 H. unfold bind.
    destruct (Hmr st1 st2 H) as [Hres Hlc].
    destruct (m st1) as [[a1|e1] st1'], (m st2) as [[a2|e2] st2'];
      simpl in Hres, Hlc; try discriminate.
    + injection Hres as <-. apply (Hk a1); exact Hlc.
    + injection Hres as <-. split; [reflexivity | exact Hlc].
  - intros st. unfold bind. specialize (Hmw st).
    destruct (m st) as [[a|e] st'] eqn:Hm; simpl in Hmw.
    + eapply only_linecache_written_trans; [exact Hmw |].
      apply (Hk a).
    + exact Hmw.
Qed.

Lemma confined_repr_frame (frame : Frame) : confined (repr_frame frame).
Proof.
  split.
  - intros st1 st2 H. apply repr_frame_reads, H.
  - intros st. destruct (repr_frame_frame frame st) as (text & _ & Hw). exact Hw.
Qed.

Lemma confined_call_stack_loop (frame : Frame) :
  forall L, confined (call_stack_loop frame L).
Proof.
  induction frame as [l i c g | l i c g caller IH] using Frame_back_ind; intros L.
  - change (confined (bind (repr_frame (mkFrame l i c g None))
                        (fun entry => ret (L ++ [entry])))).
    apply confined_bind; [apply confined_repr_frame |].
    intros entry. apply confined_ret.
  - change (confined (bind (repr_frame (mkFrame l i c g (Some caller)))
                        (fun entry => call_stack_loop caller (L ++ [entry])))).
    apply confined_bind; [apply confined_repr_frame |].
    intros entry. apply IH.
Qed.

Lemma confined_call_stack (frame : Frame) : confined (call_stack frame).
Proof.
  unfold call_stack. apply confined_bind; [apply confined_call_stack_loop |].
  intros L. apply confined_ret.
Qed.

Lemma confined_stack_for_threads_loop (frames : gmap Z Frame) (threads : list Thread) :
  forall lines, confined (stack_for_threads_loop frames threads lines).
Proof.
  induction threads as [|thread rest IH]; intros lines; simpl.
  - apply confined_ret.
  - apply confined_bind; [apply confined_lift |].
    intros h. destruct (frames_get frames (ident thread)) as [frame|].
    + apply confined_bind; [apply confined_call_stack |].
      intros stack. apply IH.
    + apply IH.
Qed.

(** *** The loop of [call_stack] renders the chain in order *)

Lemma call_stack_loop_mapM (frame : Frame) :
  forall L st,
    call_stack_loop frame L st
    = bind (mapM repr_frame (back_chain frame)) (fun texts => ret (L ++ texts)) st.
Proof.
  induction frame as [l i c g | l i c g caller IH] using Frame_back_ind;
    intros L st.
  - change (bind (repr_frame (mkFrame l i c g None))
              (fun entry => ret (L ++ [entry])) st
            = bind (bind (repr_frame (mkFrame l i c g None))
                      (fun y => bind (ret []) (fun ys => ret (y :: ys))))
                (fun texts => ret (L ++ texts)) st).
    rewrite bind_assoc. apply bind_cong. reflexivity.
  - change (bind (repr_frame (mkFrame l i c g (Some caller)))
              (fun entry => call_stack_loop caller (L ++ [entry])) st
            = bind (bind (repr_frame (mkFrame l i c g (Some caller)))
                      (fun y => bind (mapM repr_frame (back_chain caller))
                                  (fun ys => ret (y :: ys))))
                (fun texts => ret (L ++ texts)) st).
    rewrite bind_assoc. apply bind_cong. intros text st'.
    rewrite IH, bind_assoc. apply bind_cong. intros ys st''.
    rewrite bind_ret_l. unfold ret. rewrite <- app_assoc. reflexivity.
Qed.

Lemma mapM_repr_frame_ok (frames : list Frame) :
  forall st, exists texts st',
    mapM repr_frame frames st = (Ok texts, st')
    /\ length texts = length frames.
Proof.
  induction frames as [|frame rest IH]; intros st; simpl.
  - exists [], st. split; reflexivity.
  - destruct (repr_frame_eq frame st) as (line & lc & _ & Hrepr).
    unfold bind at 1. rewrite Hrepr.
    destruct (IH (set_linecache lc st)) as (texts & st' & Hrest & Hlen).
    unfold bind. rewrite Hrest. eexists _, st'. split; [reflexivity |].
    simpl. rewrite Hlen. reflexivity.
Qed.

Lemma call_stack_ok (frame : Frame) (st : Interp) :
  exists texts st',
    mapM repr_frame (back_chain frame) st = (Ok texts, st')
    /\ call_stack frame st = (Ok (rev texts), st')
    /\ length texts = length (back_chain frame).
Proof.
  destruct (mapM_repr_frame_ok (back_chain frame) st) as (texts & st' & Hmap & Hlen).
  exists texts, st'. split; [exact Hmap |]. split; [| exact Hlen].
  unfold call_stack. unfold bind at 1. rewrite call_stack_loop_mapM.
  unfold bind. rewrite Hmap. reflexivity.
Qed.

Lemma back_chain_head (frame : Frame) :
  exists callers, back_chain frame = frame :: callers.
Proof. destruct frame as [l i c g [caller|]]; eexists; reflexivity. Qed.

(** *** The loop of [stack_for_threads] emits two entries per thread *)

Lemma thread_body_ok (frames : gmap Z Frame) (thread : Thread) (st : Interp) :
  exists body st', thread_body frames thread st = (Ok body, st').
Proof.
  unfold thread_body. destruct (frames_get frames (ident thread)) as [frame|].
  - destruct (call_stack_ok frame st) as (texts & st' & _ & Hcs & _).
    erewrite bind_Ok by exact Hcs. eexists _, _. reflexivity.
  - eexists _, _. reflexivity.
Qed.

Lemma thread_entries_ok (frames : gmap Z Frame) (threads : list Thread) :
  forall st, exists entries st',
    thread_entries frames threads st = (Ok entries, st')
    /\ length entries = (2 * length threads)%nat.
Proof.
  induction threads as [|thread rest IH]; intros st; simpl.
  - exists [], st. split; reflexivity.
  - destruct (thread_body_ok frames thread st) as (body & st1 & Hbody).
    destruct (IH st1) as (more & st2 & Hmore & Hlen).
    erewrite bind_Ok by exact Hbody. erewrite bind_Ok by exact Hmore.
    eexists _, _. split; [reflexivity |]. simpl. lia.
Qed.

Lemma stack_for_threads_loop_entries (frames : gmap Z Frame) (threads : list Thread) :
  Forall (fun thread => ident thread <> None) threads ->
  forall lines st,
    stack_for_threads_loop frames threads lines st
    = bind (thread_entries frames threads) (fun entries => ret (lines ++ entries)) st.
Proof.
  induction 1 as [|thread rest Hstarted _ IH]; intros lines st; simpl.
  - rewrite bind_ret_l. unfold ret. rewrite app_nil_r. reflexivity.
  - unfold thread_header, thread_body.
    destruct (ident thread) as [i|] eqn:Hident; [| contradiction].
    simpl. change (bind (lift (Ok (hex i))) ?k st) with (k (hex i) st). cbv beta.
    destruct (frames !! i) as [frame|].
    + rewrite !bind_assoc. apply bind_cong. intros stack st1.
      rewrite bind_ret_l, IH, bind_assoc. apply bind_cong. intros more st2.
      rewrite bind_ret_l. unfold ret. rewrite <- !app_assoc. reflexivity.
    + rewrite bind_assoc, bind_ret_l, IH, bind_assoc. apply bind_cong.
      intros more st2. rewrite bind_ret_l. unfold ret.
      rewrite <- !app_assoc. reflexivity.
Qed.

Lemma thread_entries_lookup (frames : gmap Z Frame) (threads : list Thread) :
  forall (k : nat) thread st lines st',
    thread_entries frames threads st = (Ok lines, st') ->
    threads !! k = Some thread ->
    lines !! (2 * k)%nat = Some (thread_header thread)
    /\ exists body,
         fst (thread_body frames thread
                (snd (thread_entries frames (take k threads) st))) = Ok body
         /\ lines !! (2 * k + 1)%nat = Some body.
Proof.
  induction threads as [|first rest IH]; intros k thread st lines st' Hrun Hk.
  - destruct k; discriminate.
  - simpl in Hrun.
    destruct (thread_body_ok frames first st) as (body & st1 & Hbody).
    destruct (thread_entries_ok frames rest st1) as (more & st2 & Hmore & _).
    erewrite bind_Ok in Hrun by exact Hbody.
    erewrite bind_Ok in Hrun by exact Hmore.
    injection Hrun as <- <-.
    destruct k as [|k].
    + injection Hk as <-. split; [reflexivity |].
      exists body. simpl. rewrite Hbody. split; reflexivity.
    + simpl in Hk.
      destruct (IH k thread st1 more st2 Hmore Hk) as (Hhead & body' & Hb & Hl).
      replace (2 * S k)%nat with (S (S (2 * k))) by lia.
      replace (S (S (2 * k)) + 1)%nat with (S (S (2 * k + 1))) by lia.
      split; [exact Hhead |]. exists body'. split; [| exact Hl].
      simpl take.
      destruct (thread_entries_ok frames (take k rest) st1) as (es & st3 & Hes & _).
      simpl thread_entries.
      erewrite bind_Ok by exact Hbody. erewrite bind_Ok by exact Hes.
      rewrite Hes in Hb. exact Hb.
Qed.

Lemma app_one_neq {A} (l : list A) (x : A) (more : list A) :
  l ++ x :: more <> l.
Proof.
  intros H. apply (f_equal (@length A)) in H.
  rewrite length_app in H. simpl in H. lia.
Qed.

Lemma trace_on_eq (st : Interp) :
  trace_on st
  = (Ok (trace_on_value st),
     match trace_on_cache st with
     | Some _ => st
     | None => set_trace_on_cache (Some (trace_on_value st)) st
     end).
Proof.
  unfold trace_on, trace_on_value. destruct (trace_on_cache st); reflexivity.
Qed.

Lemma trace_on_keeps (st : Interp) :
  stderr (snd (trace_on st)) = stderr st
  /\ monotonic_repr (snd (trace_on st)) = monotonic_repr st
  /\ current_thread_name (snd (trace_on st)) = current_thread_name st
  /\ current_exc_text (snd (trace_on st)) = current_exc_text st
  /\ trace_on_cache (snd (trace_on st)) = Some (trace_on_value st).
Proof.
  rewrite trace_on_eq. unfold trace_on_value.
  destruct (trace_on_cache st) eqn:Hc; simpl; rewrite ?Hc; auto.
Qed.

(** *** The properties *)

(** C8 ([_f_lineno]).  The function is total with an [int] result.  It
    returns [frame.f_lineno] whenever that is not [None].  When it is [None]
    and the line starts of the code object come in increasing offset order,
    as [dis.findlinestarts] yields them, it returns the code object's first
    line number if [f_lasti] precedes every line start, and otherwise the
    line of the greatest line-start offset that does not exceed [f_lasti]. *)
Theorem f_lineno_greatest_start (frame : Frame) :
  (forall l, f_lineno frame = Some l -> _f_lineno frame = l)
  /\ (f_lineno frame = None ->
      StronglySorted Z.lt (map fst (findlinestarts (f_code frame))) ->
      (Forall (fun p => f_lasti frame < fst p) (findlinestarts (f_code frame)) ->
         _f_lineno frame = co_firstlineno (f_code frame))
      /\ (Exists (fun p => fst p <= f_lasti frame) (findlinestarts (f_code frame)) ->
          exists start line,
            In (start, line) (findlinestarts (f_code frame))
            /\ start <= f_lasti frame
            /\ (forall s' l', In (s', l') (findlinestarts (f_code frame)) ->
                  s' <= f_lasti frame -> s' <= start)
            /\ _f_lineno frame = line)).
Proof.
  split.
  - intros l Hl. unfold _f_lineno. rewrite Hl. reflexivity.
  - intros Hnone Hsorted. unfold _f_lineno. rewrite Hnone.
    destruct (_f_lineno_loop_cases (f_lasti frame) (findlinestarts (f_code frame))
                (co_firstlineno (f_code frame)) Hsorted)
      as [[Heq Hall] | (start & line & Hin & Hle & Hmax & Heq)].
    + split; [intros _; exact Heq |].
      intros Hex. exfalso. apply List.Exists_exists in Hex as (p & Hp & Hreach).
      rewrite List.Forall_forall in Hall. specialize (Hall p Hp). lia.
    + split.
      * intros Hall. exfalso. rewrite List.Forall_forall in Hall.
        specialize (Hall _ Hin). simpl in Hall. lia.
      * intros _. exists start, line. auto.
Qed.

(** C9 ([call_stack]).  The call never raises; its result is the list of
    [repr_frame] renderings of the frames of the [f_back] chain, taken from
    the given frame outwards and then reversed: one entry per frame, the
    outermost frame first and the given frame last. *)
Theorem call_stack_reversed_chain (frame : Frame) (st : Interp) :
  exists texts st',
    mapM repr_frame (back_chain frame) st = (Ok texts, st')
    /\ call_stack frame st = (Ok (rev texts), st')
    /\ length (rev texts) = length (back_chain frame)
    /\ exists entry, fst (repr_frame frame st) = Ok entry
                     /\ last (rev texts) = Some entry.
Proof.
  destruct (call_stack_ok frame st) as (texts & st' & Hmap & Hcs & Hlen).
  exists texts, st'. split; [exact Hmap |]. split; [exact Hcs |].
  split; [rewrite length_rev; exact Hlen |].
  destruct (back_chain_head frame) as (callers & Hchain).
  rewrite Hchain in Hmap. simpl in Hmap.
  destruct (repr_frame_eq frame st) as (line & lc & _ & Hrepr).
  erewrite bind_Ok in Hmap by exact Hrepr.
  destruct (mapM_repr_frame_ok callers (set_linecache lc st)) as (ys & st2 & Hys & _).
  erewrite bind_Ok in Hmap by exact Hys.
  injection Hmap as <- <-.
  eexists. rewrite Hrepr. split; [reflexivity |].
  simpl rev. apply last_snoc.
Qed.

(** C10 ([stack_for_threads]).  For started threads the call never raises
    and returns two entries per thread, in argument order: entry [2k] is the
    header, the text [------ Call stack of NAME (HEX) -----] with the name of
    thread [k] and [hex] of its ident; entry [2k+1] is the concatenation of
    the entries of [call_stack] on the thread's current frame (run in the
    state the earlier threads left) when the frame mapping has one for the
    ident, and the literal [No stack frames found] otherwise. *)
Theorem stack_for_threads_two_entries (threads : list Thread) (st : Interp) :
  Forall (fun thread => ident thread <> None) threads ->
  exists lines st',
    stack_for_threads threads st = (Ok lines, st')
    /\ thread_entries (current_frames st) threads st = (Ok lines, st')
    /\ length lines = (2 * length threads)%nat
    /\ forall (k : nat) thread, threads !! k = Some thread ->
         exists i, ident thread = Some i
           /\ lines !! (2 * k)%nat
              = Some ("------ Call stack of " +:+ name thread
                        +:+ " (" +:+ hex i +:+ ") -----")
           /\ match current_frames st !! i with
              | Some frame =>
                  exists stack,
                    fst (call_stack frame
                           (snd (stack_for_threads (take k threads) st))) = Ok stack
                    /\ lines !! (2 * k + 1)%nat
                       = Some (String.concat EmptyString stack)
              | None => lines !! (2 * k + 1)%nat = Some "No stack frames found"
              end.
Proof.
  intros Hstarted.
  destruct (thread_entries_ok (current_frames st) threads st)
    as (lines & st' & Hentries & Hlen).
  exists lines, st'.
  assert (Hrun : forall ts, Forall (fun thread => ident thread <> None) ts ->
            stack_for_threads ts st
            = bind (thread_entries (current_frames st) ts) (fun es => ret es) st).
  { intros ts Hts. unfold stack_for_threads.
    rewrite stack_for_threads_loop_entries by exact Hts. reflexivity. }
  split; [rewrite Hrun by exact Hstarted; erewrite bind_Ok by exact Hentries;
          reflexivity |].
  split; [exact Hentries |]. split; [exact Hlen |].
  intros k thread Hk.
  destruct (thread_entries_lookup _ _ _ _ _ _ _ Hentries Hk)
    as (Hhead & body & Hbody & Hline).
  assert (Htake : Forall (fun thread => ident thread <> None) (take k threads))
    by (apply Forall_take; exact Hstarted).
  rewrite List.Forall_forall in Hstarted.
  assert (Hin : In thread threads).
  { apply list_elem_of_In, list_elem_of_lookup. eauto. }
  destruct (ident thread) as [i|] eqn:Hident;
    [| exfalso; exact (Hstarted _ Hin Hident)].
  exists i. split; [reflexivity |].
  split; [rewrite Hhead; unfold thread_header; rewrite Hident; reflexivity |].
  assert (Hstate : snd (stack_for_threads (take k threads) st)
                   = snd (thread_entries (current_frames st) (take k threads) st)).
  { rewrite Hrun.
    - destruct (thread_entries_ok (current_frames st) (take k threads) st)
        as (es & st3 & Hes & _).
      erewrite bind_Ok by exact Hes. rewrite Hes. reflexivity.
    - exact Htake. }
  unfold thread_body in Hbody. rewrite Hident in Hbody. simpl in Hbody.
  destruct (current_frames st !! i) as [frame|].
  - rewrite Hstate.
    destruct (call_stack_ok frame
                (snd (thread_entries (current_frames st) (take k threads) st)))
      as (texts & st4 & _ & Hcs & _).
    erewrite bind_Ok in Hbody by exact Hcs. simpl in Hbody.
    injection Hbody as <-.
    exists (rev texts). rewrite Hcs. split; [reflexivity | exact Hline].
  - simpl in Hbody. injection Hbody as <-. exact Hline.
Qed.

(** C7, as the code has it ([stack_for_threads], [call_stack],
    [repr_frame]).  Whatever threads are passed, also unstarted ones, the
    interpreter after the call is the interpreter before it except for the
    state of [linecache]: settings, memo table, standard error and the frame
    mapping are untouched.  The result is determined by the threads passed,
    the frame mapping and the state of [linecache], from which the source
    lines are fetched. *)
Theorem stack_for_threads_read_only (threads : list Thread) (st : Interp) :
  only_linecache_written st (snd (stack_for_threads threads st))
  /\ (forall st2,
        current_frames st2 = current_frames st ->
        linecache st2 = linecache st ->
        fst (stack_for_threads threads st2) = fst (stack_for_threads threads st))
  /\ (forall frame, confined (call_stack frame) /\ confined (repr_frame frame)).
Proof.
  split; [| split].
  - apply (confined_stack_for_threads_loop (current_frames st) threads []).
  - intros st2 Hframes Hlc. unfold stack_for_threads. rewrite Hframes.
    apply (confined_stack_for_threads_loop (current_frames st) threads []).
    exact Hlc.
  - intros frame. split; [apply confined_call_stack | apply confined_repr_frame].
Qed.

(** C6, as the code has it ([trace_on], [trace]).  [trace_on()] answers
    whether one of the two settings was on when it was first called, and
    keeps answering so whatever the settings become.  [trace] writes to
    standard error exactly when [trace_on()] is true and the two formatting
    steps [message % args] and [... % kwargs] succeed; what it writes is the
    prefixed message, then the exception text if [exc_info] is set.  When a
    formatting step raises, the exception leaves [trace] and nothing is
    written.  When [trace_on()] is false, [trace] does nothing beyond the
    memoisation in [trace_on]. *)
Theorem trace_gated (message : string) (args : list PyObj) (exc_info : bool)
    (kwargs : list (string * PyObj)) (st : Interp) :
  fst (trace_on st) = Ok (trace_on_value st)
  /\ (forall debug test,
        fst (trace_on (set_settings debug test (snd (trace_on st))))
        = Ok (trace_on_value st))
  /\ (stderr (snd (trace message args exc_info kwargs st)) <> stderr st
      <-> trace_on_value st = true
          /\ is_Ok (format_message message args kwargs) = true)
  /\ (trace_on_value st = false ->
      trace message args exc_info kwargs st = (Ok tt, snd (trace_on st))
      /\ stderr (snd (trace_on st)) = stderr st)
  /\ (forall text,
        trace_on_value st = true ->
        format_message message args kwargs = Ok text ->
        fst (trace message args exc_info kwargs st) = Ok tt
        /\ stderr (snd (trace message args exc_info kwargs st))
           = stderr st ++ [(trace_prefix st +:+ text) +:+ nl]
               ++ (if exc_info then [current_exc_text st] else []))
  /\ (forall e,
        trace_on_value st = true ->
        format_message message args kwargs = Raise e ->
        fst (trace message args exc_info kwargs st) = Raise e
        /\ stderr (snd (trace message args exc_info kwargs st)) = stderr st).
Proof.
  destruct (trace_on_keeps st) as (Herr & Hclock & Hname & Hexc & Hcache).
  assert (Hto : trace_on st = (Ok (trace_on_value st), snd (trace_on st)))
    by (rewrite trace_on_eq; reflexivity).
  assert (Hoff : trace_on_value st = false ->
            trace message args exc_info kwargs st = (Ok tt, snd (trace_on st))).
  { intros Hv. unfold trace. rewrite (bind_Ok _ _ _ _ _ Hto), Hv. reflexivity. }
  assert (Hon : trace_on_value st = true ->
            fst (trace message args exc_info kwargs st)
            = match format_message message args kwargs with
              | Ok _ => Ok tt
              | Raise e => Raise e
              end
            /\ stderr (snd (trace message args exc_info kwargs st))
               = match format_message message args kwargs with
                 | Ok text =>
                     stderr st ++ [(trace_prefix st +:+ text) +:+ nl]
                       ++ (if exc_info then [current_exc_text st] else [])
                 | Raise _ => stderr st
                 end).
  { intros Hv. unfold trace. rewrite (bind_Ok _ _ _ _ _ Hto), Hv.
    unfold bind, lift, format_message, print_stderr, print_exc, ret, trace_prefix.
    rewrite <- Hclock, <- Hname, <- Herr, <- Hexc.
    destruct (str_mod_tuple message args) as [m1|e]; [| split; reflexivity].
    destruct (str_mod_dict m1 kwargs) as [m2|e]; [| split; reflexivity].
    destruct exc_info; simpl.
    - rewrite <- app_assoc. split; reflexivity.
    - split; reflexivity. }
  split; [rewrite trace_on_eq; reflexivity |].
  split.
  { intros debug test. rewrite trace_on_eq. simpl. f_equal.
    unfold trace_on_value at 1. simpl. rewrite Hcache. reflexivity. }
  split.
  { destruct (trace_on_value st) eqn:Hv.
    - destruct (Hon eq_refl) as [_ Hstd]. rewrite Hstd.
      destruct (format_message message args kwargs) as [text|e]; simpl.
      + split; [auto |]. intros _. apply app_one_neq.
      + split; [intros H; contradiction | intros [_ H]; discriminate].
    - rewrite (Hoff eq_refl). simpl. rewrite Herr.
      split; [intros H; contradiction | intros [H _]; discriminate]. }
  split.
  { intros Hv. split; [apply Hoff, Hv | exact Herr]. }
  split.
  { intros text Hv Hfmt. destruct (Hon Hv) as [Hfst Hstd].
    rewrite Hfst, Hstd, Hfmt. split; reflexivity. }
  intros e Hv Hfmt. destruct (Hon Hv) as [Hfst Hstd].
  rewrite Hfst, Hstd, Hfmt. split; reflexivity.
Qed.

End WithRuntime.

(** *** The properties on the example data *)

Import SimpleRuntime Examples.

(** In [main], stopped at offset 8 with no line number, the line is that of
    the line start at offset 4. *)
Lemma f_lineno_greatest_start_witness :
  f_lineno frame_main = None
  /\ StronglySorted Z.lt (map fst (findlinestarts (f_code frame_main)))
  /\ exists start line,
       In (start, line) (findlinestarts (f_code frame_main))
       /\ start <= f_lasti frame_main
       /\ (forall s' l', In (s', l') (findlinestarts (f_code frame_main)) ->
             s' <= f_lasti frame_main -> s' <= start)
       /\ _f_lineno frame_main = line.
Proof.
  assert (Hsorted : StronglySorted Z.lt (map fst (findlinestarts (f_code frame_main)))).
  { simpl. repeat constructor. }
  split; [reflexivity |]. split; [exact Hsorted |].
  destruct (f_lineno_greatest_start (RT := simple_runtime) frame_main) as [_ H].
  destruct (H eq_refl Hsorted) as [_ Hreach].
  apply Hreach. simpl. apply Exists_cons_hd. simpl. lia.
Defined.

(** Two started threads, one with a frame and one without: four entries,
    with these texts. *)
Lemma stack_for_threads_two_entries_witness :
  Forall (fun thread => ident thread <> None) [thread_main; thread_idle]
  /\ exists lines st',
       stack_for_threads [thread_main; thread_idle] interp0 = (Ok lines, st')
       /\ length lines = 4%nat
       /\ lines !! 0%nat = Some "------ Call stack of MainThread (0x1) -----"
       /\ lines !! 1%nat
          = Some ("  File " +:+ dquote +:+ "flow.py" +:+ dquote
                    +:+ ", line 11, in main" +:+ nl +:+ tab +:+ "x = helper()"
                    +:+ "  File " +:+ dquote +:+ "flow.py" +:+ dquote
                    +:+ ", line 2, in helper" +:+ nl +:+ tab +:+ "return 1")
       /\ lines !! 2%nat = Some "------ Call stack of Worker (0xff) -----"
       /\ lines !! 3%nat = Some "No stack frames found".
Proof.
  assert (Hstarted : Forall (fun thread => ident thread <> None)
                       [thread_main; thread_idle]).
  { repeat constructor; discriminate. }
  split; [exact Hstarted |].
  destruct (stack_for_threads_two_entries (RT := simple_runtime)
              [thread_main; thread_idle] interp0 Hstarted)
    as (lines & st' & Hrun & _ & Hlen & Hidx).
  exists lines, st'. split; [exact Hrun |]. split; [exact Hlen |].
  destruct (Hidx 0%nat thread_main eq_refl) as (i0 & Hi0 & Hhead0 & Hbody0).
  destruct (Hidx 1%nat thread_idle eq_refl) as (i1 & Hi1 & Hhead1 & Hbody1).
  injection Hi0 as <-. injection Hi1 as <-.
  destruct Hbody0 as (stack & Hstack & Hline).
  vm_compute in Hstack. injection Hstack as <-.
  split; [exact Hhead0 |]. split; [exact Hline |].
  split; [exact Hhead1 | exact Hbody1].
Defined.

(** The settings differ, the frames and [linecache] do not: same text. *)
Lemma stack_for_threads_read_only_witness :
  current_frames interp_quiet = current_frames interp0
  /\ linecache interp_quiet = linecache interp0
  /\ fst (stack_for_threads [thread_main] interp_quiet)
     = fst (stack_for_threads [thread_main] interp0).
Proof.
  split; [reflexivity |]. split; [reflexivity |].
  destruct (stack_for_threads_read_only (RT := simple_runtime) [thread_main] interp0)
    as (_ & Hreads & _).
  apply Hreads; reflexivity.
Defined.

(** The same frames with other text in [linecache] render differently: the
    result is not a function of the frame mapping alone. *)
Lemma stack_for_threads_depends_on_linecache :
  ~ (forall st1 st2 : Interp (RT := simple_runtime),
       current_frames st1 = current_frames st2 ->
       fst (stack_for_threads [thread_main] st1)
       = fst (stack_for_threads [thread_main] st2)).
Proof.
  intros H. specialize (H interp0 interp_stale eq_refl).
  vm_compute in H. discriminate H.
Qed.

(** With debug mode on, a message that formats is written. *)
Lemma trace_gated_witness :
  trace_on_value interp0 = true
  /\ format_message (RT := simple_runtime) "hello %s" ["w"] [] = Ok "hello w"
  /\ stderr (snd (trace (RT := simple_runtime) "hello %s" ["w"] false [] interp0))
     = stderr interp0 ++ [(trace_prefix interp0 +:+ "hello w") +:+ nl] ++ [].
Proof.
  split; [reflexivity |]. split; [reflexivity |].
  destruct (trace_gated (RT := simple_runtime) "hello %s" ["w"] false [] interp0)
    as (_ & _ & _ & _ & Hwrites & _).
  apply (Hwrites "hello w"); reflexivity.
Defined.

(** With debug mode on, [trace("%s")] raises [TypeError] while formatting
    and writes nothing, although [trace_on()] is true. *)
Lemma trace_on_without_output :
  ~ (stderr (snd (trace (RT := simple_runtime) "%s" [] false [] interp0))
       <> stderr interp0
     <-> fst (trace_on interp0) = Ok true).
Proof.
  intros [_ H]. apply H; reflexivity.
Qed.

(** An unstarted thread: [hex(None)] raises, the entries built so far are
    lost, and the interpreter is as the earlier threads left it. *)
Lemma stack_for_threads_unstarted :
  fst (stack_for_threads [thread_main; thread_unstarted] interp0)
  = Raise (TypeError "'NoneType' object cannot be interpreted as an integer")
  /\ snd (stack_for_threads [thread_main; thread_unstarted] interp0)
     = snd (stack_for_threads [thread_main] interp0).
Proof. split; vm_compute; reflexivity. Qed.

(** The call stack of [helper] called from [main]: [main] comes first. *)
Lemma call_stack_example :
  fst (call_stack frame_helper interp0)
  = Ok [frame_text frame_main +:+ nl +:+ tab +:+ "x = helper()";
        frame_text frame_helper +:+ nl +:+ tab +:+ "return 1"].
Proof. vm_compute. reflexivity. Qed.

(** A frame that has not started ([f_lasti = -1]) is at the first line. *)
Lemma f_lineno_not_started :
  _f_lineno (mkFrame (RT := simple_runtime) None (-1) code_main tt None) = 10.
Proof. reflexivity. Qed.

(** Without the order of the line starts the loop stops at the first start
    beyond [f_lasti], which need not follow the greatest one below it. *)
Lemma f_lineno_needs_order :
  _f_lineno (mkFrame (RT := simple_runtime) None 5
               (mkCode "flow.py" "main" 1 [(0, 1); (10, 2); (4, 3)]) tt None) = 1.
Proof. reflexivity. Qed.

End InspectionFacts.

(** ** The runner's web server *)

Module WebserverFacts.
Import Json Webserver Examples.

Lemma length_append (s t : string) :
  String.length (s +:+ t) = (String.length s + String.length t)%nat.
Proof.
  induction s as [|c s IH]; [reflexivity |].
  change (S (String.length (s +:+ t)) = S (String.length s + String.length t)).
  rewrite IH. reflexivity.
Qed.

Lemma append_inj_l (s t1 t2 : string) : s +:+ t1 = s +:+ t2 -> t1 = t2.
Proof.
  induction s as [|c s IH]; intros H; [exact H |].
  change (String c (s +:+ t1) = String c (s +:+ t2)) in H.
  injection H as H. apply IH, H.
Qed.

Lemma append_inj_r (t s1 : string) : forall s2, s1 +:+ t = s2 +:+ t -> s1 = s2.
Proof.
  induction s1 as [|c s1 IH]; intros [|d s2] H.
  - reflexivity.
  - exfalso. apply (f_equal String.length) in H.
    rewrite !length_append in H. simpl in H. lia.
  - exfalso. apply (f_equal String.length) in H.
    rewrite !length_append in H. simpl in H. lia.
  - change (String c (s1 +:+ t) = String d (s2 +:+ t)) in H.
    injection H as -> H. f_equal. apply IH, H.
Qed.

Lemma run_path_inj (id1 id2 : string) : run_path id1 = run_path id2 -> id1 = id2.
Proof.
  unfold run_path. intros H.
  apply append_inj_l in H. apply append_inj_r in H. exact H.
Qed.

Lemma in_build_server (runner : Runner) (r : Route) :
  In r (build_server runner)
  <-> exists id d, deployments runner !! id = Some d
                   /\ r = mkRoute (run_path id) "POST" d.
Proof.
  unfold build_server. rewrite in_map_iff. split.
  - intros ([id d] & <- & Hin). exists id, d. split; [| reflexivity].
    apply elem_of_map_to_list, list_elem_of_In, Hin.
  - intros (id & d & Hd & ->). exists (id, d). split; [reflexivity |].
    apply list_elem_of_In, elem_of_map_to_list, Hd.
Qed.

(** The routes at one path, among routes built from pairs with distinct ids. *)
Lemma routes_at_path_none (id : string) (l : list (string * Deployment)) :
  ~ In id (map fst l) ->
  List.filter (fun r => String.eqb (path r) (run_path id))
    (map (fun '(id', d) => mkRoute (run_path id') "POST" d) l) = [].
Proof.
  induction l as [|[k v] l IH]; intros Hnot; [reflexivity |].
  cbn [map List.filter path].
  destruct (String.eqb_spec (run_path k) (run_path id)) as [Heq | _].
  - exfalso. apply Hnot. left. simpl. apply run_path_inj, Heq.
  - apply IH. intros Hin. apply Hnot. right. exact Hin.
Qed.

Lemma routes_at_path_one (id : string) (d : Deployment)
    (l : list (string * Deployment)) :
  List.NoDup (map fst l) -> In (id, d) l ->
  List.filter (fun r => String.eqb (path r) (run_path id))
    (map (fun '(id', d') => mkRoute (run_path id') "POST" d') l)
  = [mkRoute (run_path id) "POST" d].
Proof.
  induction l as [|[k v] l IH]; intros Hnodup Hin; [destruct Hin |].
  simpl in Hnodup. apply List.NoDup_cons_iff in Hnodup as [Hfresh Hnodup].
  cbn [map List.filter path].
  destruct (String.eqb_spec (run_path k) (run_path id)) as [Heq | Hne].
  - apply run_path_inj in Heq. subst k.
    destruct Hin as [Hhead | Htail].
    + injection Hhead as ->. f_equal. apply routes_at_path_none, Hfresh.
    + exfalso. apply Hfresh. apply in_map_iff. exists (id, d). auto.
  - destruct Hin as [Hhead | Htail].
    + injection Hhead as -> ->. contradiction.
    + apply IH; assumption.
Qed.

(** *** The properties *)

(** C1 (run route).  For every deployment registered with the runner, a POST
    to its run route answers 201 with the id of the new run, and enqueues
    the proposal, when the payload passes validation against the
    deployment's parameter schema; it answers 400, and enqueues nothing,
    when the payload fails validation. *)
Theorem run_route_status (runner : Runner) (id : string) (d : Deployment)
    (body : Json) (engine : Engine) :
  deployments runner !! id = Some d ->
  (validate (parameter_openapi_schema d) body = true ->
     post (build_server runner) (run_path id) body engine
     = (mkResponse 201 (Some (next_run_id engine)),
        mkEngine (enqueued engine
                    ++ [mkProposal (next_run_id engine) (deployment_id d) body])
                 (next_run_id engine + 1)))
  /\ (validate (parameter_openapi_schema d) body = false ->
        post (build_server runner) (run_path id) body engine
        = (mkResponse 400 None, engine)).
Proof.
  intros Hd.
  assert (Hfind : exists r,
            List.find (fun r => String.eqb (path r) (run_path id)
                                && String.eqb (method r) "POST")
              (build_server runner) = Some r
            /\ route_deployment r = d).
  { destruct (List.find _ (build_server runner)) as [r|] eqn:Hf.
    - exists r. split; [reflexivity |].
      apply find_some in Hf as [Hin Hmatch].
      apply in_build_server in Hin as (id' & d' & Hd' & ->).
      cbn [path method route_deployment] in *.
      apply andb_prop in Hmatch as [Hpath _].
      apply String.eqb_eq, run_path_inj in Hpath. subst id'.
      rewrite Hd in Hd'. injection Hd' as <-. reflexivity.
    - exfalso.
      assert (Hin : In (mkRoute (run_path id) "POST" d) (build_server runner))
        by (apply in_build_server; eauto).
      apply (find_none _ _ Hf) in Hin. cbn [path method] in Hin.
      rewrite !String.eqb_refl in Hin. discriminate. }
  destruct Hfind as (r & Hfind & Hdep).
  unfold post. rewrite Hfind, Hdep. unfold create_flow_run_for_deployment.
  split; intros ->; reflexivity.
Qed.

(** C3, as the tests have it (run routes).  Every route of the server is a
    POST route at [/deployment/{id}/run] for the id of a registered
    deployment, and for every registered deployment the server has exactly
    one route at that path, which creates runs of that deployment. *)
Theorem run_routes_match_deployments (runner : Runner) :
  (forall r, In r (build_server runner) ->
     method r = "POST"
     /\ exists id, is_Some (deployments runner !! id)
                   /\ path r = "/deployment/" +:+ id +:+ "/run")
  /\ (forall id d, deployments runner !! id = Some d ->
        List.filter (fun r => String.eqb (path r) ("/deployment/" +:+ id +:+ "/run"))
          (build_server runner)
        = [mkRoute ("/deployment/" +:+ id +:+ "/run") "POST" d]).
Proof.
  split.
  - intros r Hin. apply in_build_server in Hin as (id & d & Hd & ->).
    split; [reflexivity |]. exists id. split; [eauto | reflexivity].
  - intros id d Hd. apply (routes_at_path_one id d).
    + apply base.NoDup_ListNoDup. apply NoDup_fst_map_to_list.
    + apply list_elem_of_In, elem_of_map_to_list, Hd.
Qed.

(** The two posts of [test_runners_deployment_run_route_does_input_validation]. *)
Lemma run_route_status_witness :
  deployments runner1 !! "d1" = Some (mkDeployment "d1" flow_f)
  /\ validate flow_f (JObj [("verb", JBool false)]) = false
  /\ status_code (fst (post (build_server runner1) (run_path "d1")
                         (JObj [("verb", JBool false)]) engine0)) = 400
  /\ validate flow_f (JObj [("verb", JStr "clobber")]) = true
  /\ status_code (fst (post (build_server runner1) (run_path "d1")
                         (JObj [("verb", JStr "clobber")]) engine0)) = 201.
Proof.
  assert (Hd : deployments runner1 !! "d1" = Some (mkDeployment "d1" flow_f))
    by reflexivity.
  split; [exact Hd |]. split; [reflexivity |].
  split.
  { destruct (run_route_status runner1 "d1" _ (JObj [("verb", JBool false)])
                engine0 Hd) as [_ H400].
    rewrite H400; reflexivity. }
  split; [reflexivity |].
  destruct (run_route_status runner1 "d1" _ (JObj [("verb", JStr "clobber")])
              engine0 Hd) as [H201 _].
  rewrite H201; reflexivity.
Defined.

(** Three deployments, as in [test_runners_deployment_run_routes_exist]. *)
Lemma run_routes_match_deployments_witness :
  deployments runner3 !! "d2" = Some (mkDeployment "d2" flow_f)
  /\ List.filter (fun r => String.eqb (path r) "/deployment/d2/run")
       (build_server runner3)
     = [mkRoute "/deployment/d2/run" "POST" (mkDeployment "d2" flow_f)].
Proof.
  assert (Hd : deployments runner3 !! "d2" = Some (mkDeployment "d2" flow_f))
    by reflexivity.
  split; [exact Hd |].
  destruct (run_routes_match_deployments runner3) as [_ Hone].
  exact (Hone "d2" _ Hd).
Defined.

(** The checks of the test pass on the modelled server ... *)
Lemma routes_exist_check_passes :
  routes_exist_check (build_server runner3) ["d1"; "d2"; "d3"] = true.
Proof. vm_compute. reflexivity. Qed.

(** ... and fail on a server that exposes [/run/{id}]. *)
Lemma routes_exist_check_rejects_spec_path :
  routes_exist_check spec_worded_server ["d1"] = false.
Proof. vm_compute. reflexivity. Qed.

(** The path [/run/{id}] is not a route: a POST to [/run/d1] for the
    registered deployment [d1] finds no route, with a valid payload too. *)
Lemma spec_run_path_not_served :
  is_Some (deployments runner1 !! "d1")
  /\ ~ (exists r, In r (build_server runner1) /\ path r = "/run/" +:+ "d1")
  /\ status_code (fst (post (build_server runner1) ("/run/" +:+ "d1")
                         (JObj [("verb", JStr "clobber")]) engine0)) = 404.
Proof.
  split; [eexists; reflexivity |]. split; [| vm_compute; reflexivity].
  intros (r & Hin & Hpath).
  apply in_build_server in Hin as (id & d & _ & ->).
  simpl in Hpath. discriminate Hpath.
Qed.

(** [test_runners_deployment_run_route_with_complex_args]: only the
    required parameter is passed. *)
Lemma complex_args_post :
  status_code (fst (post (build_server runner_complex) (run_path "c1")
                      (JObj [("x", JInt 100)]) engine0)) = 201.
Proof. vm_compute. reflexivity. Qed.

End WebserverFacts.

(** ** The provisioner's command capability *)

Module ProvisionerFacts.
Import Py PyFacts Json Provisioner.

(** A step that catches nothing hands on whatever its calls raise. *)
Lemma create_resource_group_first_raises {S} (rc : RunCommand S)
    (p : ContainerInstancePushProvisioner) (st st1 : S) (e : PyExc) :
  rc (group_exists_cmd p) false true None None st = (Raise e, st1) ->
  _create_resource_group rc p st = (Raise e, st1).
Proof. intros H. unfold _create_resource_group. apply bind_Raise, H. Qed.

Lemma create_resource_group_second_raises {S} (rc : RunCommand S)
    (p : ContainerInstancePushProvisioner) (st st1 st2 : S) (o : Output)
    (e : PyExc) :
  rc (group_exists_cmd p) false true None None st = (Ok o, st1) ->
  output_truthy o = false ->
  rc (group_create_cmd p) true false (Some (group_created_message p))
     (Some (group_failed_message p)) st1 = (Raise e, st2) ->
  _create_resource_group rc p st = (Raise e, st2).
Proof.
  intros H1 Hfalsy H2. unfold _create_resource_group.
  rewrite (bind_Ok _ _ _ _ _ H1), Hfalsy. apply bind_Raise, H2.
Qed.

(** C2 (command capability).  [run_command] raises [CalledProcessError]
    when the command exits nonzero and [ignore_if_exists] is not set, and
    does not raise when it is set.  [_create_resource_group] hands every
    exception of its [run_command] calls on to its caller, whatever
    implementation of the capability it is given; with [run_command] itself,
    a failing [az group exists] makes the step raise [CalledProcessError]. *)
Theorem run_command_raises_and_step_propagates :
  (forall cli cmd return_json success_message failure_message,
     returncode (shell cli cmd) <> 0 ->
     fst (run_command cmd false return_json success_message failure_message cli)
     = Raise (CalledProcessError (returncode (shell cli cmd)) cmd)
     /\ is_Ok (fst (run_command cmd true return_json success_message
                      failure_message cli)) = true)
  /\ (forall S (rc : RunCommand S) p (st st1 : S) e,
        rc (group_exists_cmd p) false true None None st = (Raise e, st1) ->
        _create_resource_group rc p st = (Raise e, st1))
  /\ (forall S (rc : RunCommand S) p (st st1 st2 : S) o e,
        rc (group_exists_cmd p) false true None None st = (Ok o, st1) ->
        output_truthy o = false ->
        rc (group_create_cmd p) true false (Some (group_created_message p))
           (Some (group_failed_message p)) st1 = (Raise e, st2) ->
        _create_resource_group rc p st = (Raise e, st2))
  /\ (forall p cli,
        returncode (shell cli (group_exists_cmd p)) <> 0 ->
        fst (_create_resource_group run_command p cli)
        = Raise (CalledProcessError (returncode (shell cli (group_exists_cmd p)))
                   (group_exists_cmd p))).
Proof.
  assert (Hraise : forall cli cmd return_json success_message failure_message,
            returncode (shell cli cmd) <> 0 ->
            run_command cmd false return_json success_message failure_message cli
            = (Raise (CalledProcessError (returncode (shell cli cmd)) cmd),
               console_print failure_message cli)).
  { intros cli cmd rj sm fm Hrc. unfold run_command.
    destruct (Z.eqb_spec (returncode (shell cli cmd)) 0) as [H0 | _];
      [contradiction | reflexivity]. }
  split; [| split; [| split]].
  - intros cli cmd rj sm fm Hrc. split; [rewrite Hraise by exact Hrc; reflexivity |].
    unfold run_command.
    destruct (Z.eqb_spec (returncode (shell cli cmd)) 0) as [H0 | _];
      [contradiction | reflexivity].
  - intros S rc p st st1 e. apply create_resource_group_first_raises.
  - intros S rc p st st1 st2 o e. apply create_resource_group_second_raises.
  - intros p cli Hrc.
    erewrite create_resource_group_first_raises; [reflexivity |].
    apply Hraise, Hrc.
Qed.

(** [test_aci_resource_group_creation_handles_errors]: the mock answers
    [None], then raises; the step raises the same error after the two
    expected calls. *)
Lemma run_command_raises_and_step_propagates_witness :
  mock_run_command (group_exists_cmd test_provisioner) false true None None
    (mkMock [Ok ONone; Raise test_error] [])
  = (Ok ONone,
     mkMock [Raise test_error]
       [mkCall "az group exists --name prefect-aci-push-pool-rg --subscription None"
          false true None None])
  /\ _create_resource_group mock_run_command test_provisioner
       (mkMock [Ok ONone; Raise test_error] [])
     = (Raise test_error,
        mkMock []
          [mkCall "az group exists --name prefect-aci-push-pool-rg --subscription None"
             false true None None;
           mkCall
             "az group create --name 'prefect-aci-push-pool-rg' --location 'None' --subscription 'None'"
             true false
             (Some "Resource group 'prefect-aci-push-pool-rg' created successfully")
             (Some
                "Failed to create resource group 'prefect-aci-push-pool-rg' in subscription 'None'")]).
Proof.
  split; [reflexivity |].
  destruct run_command_raises_and_step_propagates as (_ & _ & Hsecond & _).
  eapply (Hsecond Mock mock_run_command test_provisioner); reflexivity.
Defined.

(** [test_aci_resource_group_creation_handles_existing_group]: one call. *)
Lemma create_resource_group_existing_group :
  _create_resource_group mock_run_command test_provisioner
    (mkMock [Ok (OJson (JBool true))] [])
  = (Ok tt,
     mkMock []
       [mkCall "az group exists --name prefect-aci-push-pool-rg --subscription None"
          false true None None]).
Proof. reflexivity. Qed.

End ProvisionerFacts.

(** ** The slot manager *)

Module SlotManagerFacts.
Import SlotManager.

Lemma acquire_within (key0 : string) (N : nat) (key run_id : string) (m : Manager) :
  within key0 N m -> within key0 N (snd (acquire key run_id m)).
Proof.
  intros [Hslots Hheld]. unfold acquire.
  destruct (limits m !! key) as [l|] eqn:Hl; [| split; assumption].
  destruct (Nat.ltb_spec (size (holders l)) (total l)) as [Hfree | Hfull];
    [| split; assumption].
  unfold within, slots, held in *. simpl.
  destruct (decide (key = key0)) as [-> | Hne].
  - rewrite lookup_insert_eq. rewrite Hl in Hslots, Hheld. simpl in *.
    injection Hslots as <-. split; [reflexivity |].
    rewrite size_union_alt, size_singleton.
    assert (Hsub : (size (holders l ∖ {[run_id]}) <= size (holders l))%nat)
      by (apply subseteq_size, subseteq_difference_l; reflexivity).
    lia.
  - rewrite lookup_insert_ne by exact Hne. split; assumption.
Qed.

Lemma release_within (key0 : string) (N : nat) (key run_id : string) (m : Manager) :
  within key0 N m -> within key0 N (release key run_id m).
Proof.
  intros [Hslots Hheld]. unfold release.
  destruct (limits m !! key) as [l|] eqn:Hl; [| split; assumption].
  destruct (bool_decide (run_id ∈ holders l)); [| split; assumption].
  unfold within, slots, held in *. simpl.
  destruct (decide (key = key0)) as [-> | Hne].
  - rewrite lookup_insert_eq. rewrite Hl in Hslots, Hheld. simpl in *.
    split; [exact Hslots |].
    assert (Hsub : (size (holders l ∖ {[run_id]}) <= size (holders l))%nat)
      by (apply subseteq_size, subseteq_difference_l; reflexivity).
    lia.
  - rewrite lookup_insert_ne by exact Hne. split; assumption.
Qed.

Lemma run_within (key : string) (N : nat) (ops : list Op) :
  forall m, within key N m -> within key N (run ops m).
Proof.
  induction ops as [|op ops IH]; intros m Hm; [exact Hm |].
  apply IH. destruct op as [k r | k r]; simpl.
  - apply acquire_within, Hm.
  - apply release_within, Hm.
Qed.

Lemma acquire_full (key run_id : string) (N : nat) (m : Manager) :
  slots key m = Some N -> held key m = N ->
  acquire key run_id m = (false, m).
Proof.
  unfold slots, held, acquire. intros Hslots Hheld.
  destruct (limits m !! key) as [l|]; [| reflexivity].
  simpl in Hslots. injection Hslots as <-.
  rewrite Hheld, Nat.ltb_irrefl. reflexivity.
Qed.

(** C4 (slot manager).  On a key with [N] slots of which at most [N] are
    held, after any sequence of acquire and release operations, on this key
    or on others, by any runs, the key still has [N] slots, its held count
    lies between 0 and [N], and whenever the held count equals [N] an
    acquire on the key returns false and changes nothing. *)
Theorem held_count_bounded (key : string) (N : nat) (m : Manager) (ops : list Op) :
  slots key m = Some N ->
  (held key m <= N)%nat ->
  slots key (run ops m) = Some N
  /\ (0 <= held key (run ops m) <= N)%nat
  /\ forall run_id,
       held key (run ops m) = N ->
       acquire key run_id (run ops m) = (false, run ops m).
Proof.
  intros Hslots Hheld.
  destruct (run_within key N ops m (conj Hslots Hheld)) as [Hslots' Hheld'].
  split; [exact Hslots' |]. split; [lia |].
  intros run_id Hfull. apply (acquire_full key run_id N); assumption.
Qed.

(** Scenario B of the design document: one slot, two runs. *)
Lemma held_count_bounded_witness :
  slots "tag" Examples.one_slot = Some 1%nat
  /\ (held "tag" Examples.one_slot <= 1)%nat
  /\ held "tag" (run [Acquire "tag" "R1"] Examples.one_slot) = 1%nat
  /\ acquire "tag" "R2" (run [Acquire "tag" "R1"] Examples.one_slot)
     = (false, run [Acquire "tag" "R1"] Examples.one_slot).
Proof.
  assert (Hslots : slots "tag" Examples.one_slot = Some 1%nat) by reflexivity.
  assert (Hheld : (held "tag" Examples.one_slot <= 1)%nat) by (vm_compute; lia).
  assert (Hfull : held "tag" (run [Acquire "tag" "R1"] Examples.one_slot) = 1%nat)
    by (vm_compute; reflexivity).
  split; [exact Hslots |]. split; [exact Hheld |]. split; [exact Hfull |].
  destruct (held_count_bounded "tag" 1 Examples.one_slot [Acquire "tag" "R1"]
              Hslots Hheld) as (_ & _ & Hrefuse).
  apply Hrefuse, Hfull.
Defined.

(** After [R1] releases, [R2] gets the slot. *)
Lemma second_run_after_release :
  fst (acquire "tag" "R2"
         (run [Acquire "tag" "R1"; Acquire "tag" "R2"; Release "tag" "R1"]
            Examples.one_slot)) = true.
Proof. vm_compute. reflexivity. Qed.

End SlotManagerFacts.

(** ** Cancel scopes *)

Module CancellationFacts.
Import Cancellation.

Lemma mark_cancelled_twice (s : CancelScope) :
  mark_cancelled (mark_cancelled s) = mark_cancelled s.
Proof. reflexivity. Qed.

Lemma request_cancel_twice (c : Call) :
  request_cancel (request_cancel c) = request_cancel c.
Proof. destruct c as [o [] r]; reflexivity. Qed.

Lemma request_cancel_owner (c : Call) :
  owning_scope (request_cancel c) = owning_scope c.
Proof. destruct c as [o [] r]; reflexivity. Qed.

Lemma request_cancel_state (c : Call) :
  call_state (request_cancel c) = call_state c.
Proof. destruct c as [o [] r]; reflexivity. Qed.

Lemma cancel_scopes_lookup (root : nat) (st : Store) (t : nat) :
  scopes (cancel root st) !! t
  = (fun s => if below st root t then mark_cancelled s else s) <$> scopes st !! t.
Proof.
  unfold cancel. simpl. rewrite map_lookup_imap.
  destruct (scopes st !! t); reflexivity.
Qed.

Lemma cancel_calls_lookup (root : nat) (st : Store) (c : nat) :
  calls (cancel root st) !! c
  = (fun call => if below st root (owning_scope call) then request_cancel call
                 else call) <$> calls st !! c.
Proof.
  unfold cancel. simpl. rewrite map_lookup_imap.
  destruct (calls st !! c); reflexivity.
Qed.

Lemma cancel_parent (root : nat) (st : Store) (t : nat) :
  parent <$> scopes (cancel root st) !! t = parent <$> scopes st !! t.
Proof.
  rewrite cancel_scopes_lookup.
  destruct (scopes st !! t) as [s|]; [| reflexivity].
  simpl. destruct (below st root t); reflexivity.
Qed.

Lemma cancel_scopes_size (root : nat) (st : Store) :
  size (scopes (cancel root st)) = size (scopes st).
Proof.
  rewrite <- !(size_dom (D := gset nat)). f_equal.
  apply set_eq. intros t. rewrite !elem_of_dom, cancel_scopes_lookup.
  rewrite fmap_is_Some. reflexivity.
Qed.

(** The walk up the parent links sees the parent links only. *)
Lemma in_subtree_parents (sc1 sc2 : gmap nat CancelScope) (root : nat) :
  (forall t, parent <$> sc1 !! t = parent <$> sc2 !! t) ->
  forall fuel t, in_subtree sc1 root fuel t = in_subtree sc2 root fuel t.
Proof.
  intros Hparents. induction fuel as [|fuel IH]; intros t; simpl.
  - reflexivity.
  - destruct (t =? root)%nat; [reflexivity |].
    specialize (Hparents t).
    destruct (sc1 !! t) as [s1|], (sc2 !! t) as [s2|]; simpl in Hparents;
      try discriminate; [| reflexivity].
    injection Hparents as ->. destruct (parent s2); [apply IH | reflexivity].
Qed.

Lemma below_cancel (root : nat) (st : Store) (t : nat) :
  below (cancel root st) root t = below st root t.
Proof.
  unfold below. rewrite cancel_scopes_size.
  apply in_subtree_parents. intros u. apply cancel_parent.
Qed.

Lemma below_root (root : nat) (st : Store) : below st root root = true.
Proof.
  unfold below. destruct (size (scopes st)); simpl; rewrite Nat.eqb_refl; reflexivity.
Qed.

(** [cancel] does what the design document says of it. *)
Lemma cancel_marks (root : nat) (st : Store) (t : nat) (s : CancelScope) :
  scopes st !! t = Some s -> below st root t = true ->
  scope_cancelled (cancel root st) t = Some true.
Proof.
  intros Hs Hbelow. unfold scope_cancelled.
  rewrite cancel_scopes_lookup, Hs. simpl. rewrite Hbelow. reflexivity.
Qed.

Lemma cancel_requests (root : nat) (st : Store) (c : nat) (call : Call) :
  calls st !! c = Some call -> below st root (owning_scope call) = true ->
  call_state call <> Finished ->
  requests_delivered (cancel root st) !! c = Some true.
Proof.
  intros Hc Hbelow Hlive. unfold requests_delivered.
  rewrite lookup_fmap, cancel_calls_lookup, Hc. simpl. rewrite Hbelow.
  destruct call as [o [] r]; simpl in *; congruence.
Qed.

Lemma cancel_keeps_finished (root : nat) (st : Store) (c : nat) (call : Call) :
  calls st !! c = Some call -> call_state call = Finished ->
  calls (cancel root st) !! c = Some call.
Proof.
  intros Hc Hfinished. rewrite cancel_calls_lookup, Hc. simpl.
  destruct (below st root (owning_scope call)); [| reflexivity].
  unfold request_cancel. rewrite Hfinished. reflexivity.
Qed.

(** C5 (cancel scope).  Cancelling a scope a second time leaves the store as
    the first call left it: the same scopes are cancelled, among them the
    descendants, and the cancellation requests delivered to the Calls, and
    the states of the Calls, are the same. *)
Theorem cancel_idempotent (root : nat) (st : Store) :
  cancel root (cancel root st) = cancel root st
  /\ (forall t, scope_cancelled (cancel root (cancel root st)) t
                = scope_cancelled (cancel root st) t)
  /\ requests_delivered (cancel root (cancel root st))
     = requests_delivered (cancel root st)
  /\ (forall c, call_state <$> calls (cancel root (cancel root st)) !! c
                = call_state <$> calls (cancel root st) !! c).
Proof.
  assert (Heq : cancel root (cancel root st) = cancel root st).
  { assert (Hscopes : scopes (cancel root (cancel root st)) = scopes (cancel root st)).
    { apply map_eq. intros t.
      rewrite (cancel_scopes_lookup root (cancel root st)), below_cancel.
      rewrite cancel_scopes_lookup.
      destruct (scopes st !! t) as [s|]; [| reflexivity]. simpl.
      destruct (below st root t); reflexivity. }
    assert (Hcalls : calls (cancel root (cancel root st)) = calls (cancel root st)).
    { apply map_eq. intros c.
      rewrite (cancel_calls_lookup root (cancel root st)).
      rewrite cancel_calls_lookup.
      destruct (calls st !! c) as [call|]; [| reflexivity]. simpl.
      destruct (below st root (owning_scope call)) eqn:Hb.
      - rewrite below_cancel, request_cancel_owner, Hb, request_cancel_twice.
        reflexivity.
      - rewrite below_cancel, Hb. reflexivity. }
    destruct (cancel root (cancel root st)) as [sc cs],
             (cancel root st) as [sc' cs']. simpl in *. congruence. }
  split; [exact Heq |]. rewrite Heq. auto.
Qed.

End CancellationFacts.

(** ** Further properties of the stack-inspection utilities *)

Module InspectionMore.
Import Py PyFacts Inspection Reference InspectionFacts Text.

Section WithRuntime.
Context `{RT : Runtime}.

(** *** The line-number loop without an order on the line starts *)

Lemma _f_lineno_loop_reached (lasti : Z) (starts : list (Z * Z)) :
  forall prev,
    _f_lineno_loop lasti prev starts = prev
    \/ exists start,
         In (start, _f_lineno_loop lasti prev starts) starts /\ start <= lasti.
Proof.
  induction starts as [|[s l] rest IH]; intros prev; simpl.
  - left. reflexivity.
  - destruct (Z.ltb_spec lasti s) as [Hbefore | Hreached]; [left; reflexivity |].
    right. destruct (IH l) as [-> | (start & Hin & Hle)].
    + exists s. split; [left; reflexivity | exact Hreached].
    + exists start. split; [right; exact Hin | exact Hle].
Qed.

Lemma _f_lineno_loop_prefix (lasti : Z) (rest : list (Z * Z)) :
  forall pre prev,
    Forall (fun p => fst p <= lasti) pre ->
    _f_lineno_loop lasti prev (pre ++ rest)
    = _f_lineno_loop lasti (default prev (last (map snd pre))) rest.
Proof.
  induction pre as [|[s l] pre IH]; intros prev Hpre; [reflexivity |].
  apply Forall_cons in Hpre as [Hs Hpre]. simpl in Hs.
  change (_f_lineno_loop lasti prev ((s, l) :: (pre ++ rest))
          = _f_lineno_loop lasti
              (default prev (last (l :: map snd pre))) rest).
  simpl _f_lineno_loop at 1.
  destruct (Z.ltb_spec lasti s) as [Hbefore | _]; [lia |].
  rewrite (IH l Hpre). f_equal.
  rewrite last_cons. destruct (last (map snd pre)); reflexivity.
Qed.

(** Without a line number on the frame, and whatever the order of the line
    starts: [_f_lineno] answers the first line of the code object when the
    table of line starts is empty or its first entry starts beyond
    [f_lasti]; when the first entry starts at or before [f_lasti], the answer
    is the line of an entry of the table that starts at or before [f_lasti]. *)
Theorem f_lineno_first_line_or_reached (frame : Frame) :
  f_lineno frame = None ->
  (findlinestarts (f_code frame) = [] ->
   _f_lineno frame = co_firstlineno (f_code frame))
  /\ (forall s0 l0 rest,
        findlinestarts (f_code frame) = (s0, l0) :: rest ->
        f_lasti frame < s0 ->
        _f_lineno frame = co_firstlineno (f_code frame))
  /\ (forall s0 l0 rest,
        findlinestarts (f_code frame) = (s0, l0) :: rest ->
        s0 <= f_lasti frame ->
        exists start,
          In (start, _f_lineno frame) (findlinestarts (f_code frame))
          /\ start <= f_lasti frame).
Proof.
  intros Hnone. unfold _f_lineno. rewrite Hnone. split; [| split].
  - intros ->. reflexivity.
  - intros s0 l0 rest -> Hbeyond. simpl.
    destruct (Z.ltb_spec (f_lasti frame) s0) as [_ | Hle]; [reflexivity | lia].
  - intros s0 l0 rest -> Hreached. simpl.
    destruct (Z.ltb_spec (f_lasti frame) s0) as [Hlt | _]; [lia |].
    destruct (_f_lineno_loop_reached (f_lasti frame) rest l0)
      as [-> | (start & Hin & Hle)].
    + exists s0. split; [left; reflexivity | exact Hreached].
    + exists start. split; [right; exact Hin | exact Hle].
Qed.

(** What the loop of [_f_lineno] computes in every case: it runs over the
    line starts up to the first one beyond [f_lasti] and returns the line of
    the entry just before it, or the first line of the code object if there
    is none; if no start is beyond [f_lasti] it returns the line of the last
    entry. *)
Theorem f_lineno_stops_at_first_beyond (frame : Frame) (pre : list (Z * Z)) :
  f_lineno frame = None ->
  Forall (fun p => fst p <= f_lasti frame) pre ->
  (forall s l post,
     findlinestarts (f_code frame) = pre ++ (s, l) :: post ->
     f_lasti frame < s ->
     _f_lineno frame
     = default (co_firstlineno (f_code frame)) (last (map snd pre)))
  /\ (findlinestarts (f_code frame) = pre ->
      _f_lineno frame
      = default (co_firstlineno (f_code frame)) (last (map snd pre))).
Proof.
  intros Hnone Hpre. unfold _f_lineno. rewrite Hnone. split.
  - intros s l post -> Hbeyond.
    rewrite _f_lineno_loop_prefix by exact Hpre. simpl.
    destruct (Z.ltb_spec (f_lasti frame) s) as [_ | Hle]; [reflexivity | lia].
  - intros ->. rewrite <- (app_nil_r pre) at 1.
    rewrite _f_lineno_loop_prefix by exact Hpre. reflexivity.
Qed.

Lemma bind_cong_l {S A B} (m1 m2 : M S A) (k : A -> M S B) st :
  (forall st', m1 st' = m2 st') -> bind m1 k st = bind m2 k st.
Proof. intros H. unfold bind. rewrite H. reflexivity. Qed.

Lemma written_frames (st st' : Interp) :
  only_linecache_written st st' -> current_frames st' = current_frames st.
Proof. intros ->. reflexivity. Qed.

(** *** How the call stack grows with the chain *)

(** The call stack of a frame is the call stack of its caller with the
    frame's own entry appended; the frame is rendered first, the caller's
    stack is taken in the state that leaves.  A frame without a caller has a
    call stack of one entry. *)
Theorem call_stack_extends_caller (frame : Frame) (st : Interp) :
  call_stack frame st
  = bind (repr_frame frame)
      (fun entry =>
         match f_back frame with
         | Some caller =>
             bind (call_stack caller) (fun outer => ret (outer ++ [entry]))
         | None => ret [entry]
         end) st.
Proof.
  destruct frame as [l i c g [caller|]]; unfold call_stack.
  - change (call_stack_loop (mkFrame l i c g (Some caller)) [])
      with (bind (repr_frame (mkFrame l i c g (Some caller)))
              (fun entry => call_stack_loop caller ([] ++ [entry]))).
    rewrite bind_assoc. apply bind_cong. intros entry st1. cbn [f_back].
    rewrite (bind_cong_l _ _ _ _ (call_stack_loop_mapM caller ([] ++ [entry]))).
    unfold call_stack. rewrite (bind_assoc (call_stack_loop caller [])).
    rewrite (bind_cong_l _ _ _ _ (call_stack_loop_mapM caller [])).
    rewrite !bind_assoc. apply bind_cong. intros texts st2.
    rewrite !bind_ret_l. unfold ret. simpl. reflexivity.
  - change (call_stack_loop (mkFrame l i c g None) [])
      with (bind (repr_frame (mkFrame l i c g None))
              (fun entry => ret ([] ++ [entry]))).
    rewrite bind_assoc. apply bind_cong. intros entry st1. cbn [f_back]. reflexivity.
Qed.

(** *** The loop of [stack_for_threads] over a split argument list *)

Lemma stack_for_threads_loop_acc (frames : gmap Z Frame) (threads : list Thread) :
  forall lines st,
    stack_for_threads_loop frames threads lines st
    = bind (stack_for_threads_loop frames threads [])
        (fun more => ret (lines ++ more)) st.
Proof.
  induction threads as [|thread rest IH]; intros lines st; simpl.
  - rewrite bind_ret_l. unfold ret. rewrite app_nil_r. reflexivity.
  - rewrite bind_assoc. apply bind_cong. intros h st1.
    destruct (frames_get frames (ident thread)) as [frame|].
    + rewrite bind_assoc. apply bind_cong. intros stack st2.
      rewrite IH. symmetry. rewrite (bind_cong_l _ _ _ _ (IH _)).
      rewrite bind_assoc. apply bind_cong. intros more st3.
      rewrite bind_ret_l. unfold ret. rewrite <- !app_assoc. reflexivity.
    + rewrite IH. symmetry. rewrite (bind_cong_l _ _ _ _ (IH _)).
      rewrite bind_assoc. apply bind_cong. intros more st3.
      rewrite bind_ret_l. unfold ret. rewrite <- !app_assoc. reflexivity.
Qed.

Lemma stack_for_threads_loop_app (frames : gmap Z Frame) (ts1 ts2 : list Thread) :
  forall lines st,
    stack_for_threads_loop frames (ts1 ++ ts2) lines st
    = bind (stack_for_threads_loop frames ts1 lines)
        (fun lines1 => stack_for_threads_loop frames ts2 lines1) st.
Proof.
  induction ts1 as [|thread rest IH]; intros lines st; simpl.
  - reflexivity.
  - rewrite bind_assoc. apply bind_cong. intros h st1.
    destruct (frames_get frames (ident thread)) as [frame|].
    + rewrite bind_assoc. apply bind_cong. intros stack st2. apply IH.
    + apply IH.
Qed.

(** Taking the stacks of [ts1 ++ ts2] is taking those of [ts1] and then those
    of [ts2], the entries of the first followed by those of the second; if
    the first part raises, so does the whole. *)
Theorem stack_for_threads_app (ts1 ts2 : list Thread) (st : Interp) :
  stack_for_threads (ts1 ++ ts2) st
  = bind (stack_for_threads ts1)
      (fun lines1 =>
         bind (stack_for_threads ts2) (fun lines2 => ret (lines1 ++ lines2))) st.
Proof.
  pose proof (proj2 (confined_stack_for_threads_loop (current_frames st) ts1 []) st)
    as Hwritten.
  apply written_frames in Hwritten.
  unfold stack_for_threads at 1. rewrite stack_for_threads_loop_app.
  unfold bind at 1 2.
  change (stack_for_threads ts1 st)
    with (stack_for_threads_loop (current_frames st) ts1 [] st).
  destruct (stack_for_threads_loop (current_frames st) ts1 [] st)
    as [[lines1|e] st1]; [| reflexivity].
  simpl in Hwritten. rewrite stack_for_threads_loop_acc.
  unfold bind, stack_for_threads. rewrite Hwritten. reflexivity.
Qed.

(** *** Unstarted threads *)

Lemma started_or_first_unstarted (threads : list Thread) :
  Forall (fun thread => ident thread <> None) threads
  \/ exists pre thread post,
       threads = pre ++ thread :: post
       /\ Forall (fun t => ident t <> None) pre
       /\ ident thread = None.
Proof.
  induction threads as [|t rest IH]; [left; constructor |].
  destruct (ident t) as [i|] eqn:Hi.
  - destruct IH as [Hall | (pre & u & post & -> & Hpre & Hu)].
    + left. constructor; [congruence | exact Hall].
    + right. exists (t :: pre), u, post. split; [reflexivity |].
      split; [constructor; [congruence | exact Hpre] | exact Hu].
  - right. exists [], t, rest. split; [reflexivity |].
    split; [constructor | exact Hi].
Qed.

Lemma stack_for_threads_started_ok (threads : list Thread) (st : Interp) :
  Forall (fun thread => ident thread <> None) threads ->
  exists lines st', stack_for_threads threads st = (Ok lines, st').
Proof.
  intros Hstarted. unfold stack_for_threads.
  rewrite stack_for_threads_loop_entries by exact Hstarted.
  destruct (thread_entries_ok (current_frames st) threads st)
    as (entries & st' & Hentries & _).
  erewrite bind_Ok by exact Hentries. eexists _, _. reflexivity.
Qed.

(** [stack_for_threads] returns normally exactly when every thread passed
    has been started.  With an unstarted thread among them it raises the
    [TypeError] of [hex(None)], whatever follows that thread, the entries of
    the threads before it are lost, and the interpreter is left as the
    threads before the first unstarted one left it. *)
Theorem stack_for_threads_raises_iff_unstarted (threads : list Thread) (st : Interp) :
  (is_Ok (fst (stack_for_threads threads st)) = true
   <-> Forall (fun thread => ident thread <> None) threads)
  /\ (forall pre thread post,
        threads = pre ++ thread :: post ->
        Forall (fun t => ident t <> None) pre ->
        ident thread = None ->
        stack_for_threads threads st
        = (Raise (TypeError "'NoneType' object cannot be interpreted as an integer"),
           snd (stack_for_threads pre st))).
Proof.
  assert (Hraise : forall pre thread post,
            threads = pre ++ thread :: post ->
            Forall (fun t => ident t <> None) pre ->
            ident thread = None ->
            stack_for_threads threads st
            = (Raise (TypeError "'NoneType' object cannot be interpreted as an integer"),
               snd (stack_for_threads pre st))).
  { intros pre thread post -> Hpre Hnone.
    destruct (stack_for_threads_started_ok pre st Hpre) as (lines & st' & Hok).
    rewrite Hok. unfold stack_for_threads in *.
    rewrite stack_for_threads_loop_app. erewrite bind_Ok by exact Hok.
    simpl. rewrite Hnone. reflexivity. }
  split; [| exact Hraise].
  split.
  - intros Hok.
    destruct (started_or_first_unstarted threads)
      as [Hall | (pre & thread & post & Hsplit & Hpre & Hnone)]; [exact Hall |].
    rewrite (Hraise pre thread post Hsplit Hpre Hnone) in Hok. discriminate.
  - intros Hall.
    destruct (stack_for_threads_started_ok threads st Hall) as (lines & st' & ->).
    reflexivity.
Qed.

(** *** Threads without a current frame *)

Lemma stack_for_threads_loop_no_frames (frames : gmap Z Frame) (threads : list Thread) :
  Forall (fun thread => ident thread <> None
                        /\ frames_get frames (ident thread) = None) threads ->
  forall lines st,
    stack_for_threads_loop frames threads lines st
    = (Ok (lines ++ flat_map (fun thread =>
                                [thread_header thread; "No stack frames found"])
                      threads), st).
Proof.
  induction 1 as [|thread rest [Hstarted Hnone] _ IH]; intros lines st; simpl.
  - rewrite app_nil_r. reflexivity.
  - rewrite Hnone. unfold thread_header.
    destruct (ident thread) as [i|]; [| contradiction].
    simpl. change (bind (lift (Ok (hex i))) ?k st) with (k (hex i) st). cbv beta.
    rewrite IH. rewrite <- !app_assoc. reflexivity.
Qed.

(** Started threads that have no entry in the frame mapping (threads that
    have finished, say) cost nothing: the result is the header and the
    literal [No stack frames found] for each, and the interpreter, the state
    of [linecache] included, is unchanged. *)
Theorem stack_for_threads_no_frames (threads : list Thread) (st : Interp) :
  Forall (fun thread => ident thread <> None
                        /\ frames_get (current_frames st) (ident thread) = None)
    threads ->
  stack_for_threads threads st
  = (Ok (flat_map (fun thread => [thread_header thread; "No stack frames found"])
           threads), st).
Proof.
  intros H. unfold stack_for_threads.
  rewrite (stack_for_threads_loop_no_frames _ _ H). reflexivity.
Qed.

(** *** What [trace] touches *)

Lemma trace_on_state (st : Interp) :
  snd (trace_on st) = set_trace_on_cache (Some (trace_on_value st)) st.
Proof.
  rewrite trace_on_eq. unfold trace_on_value, set_trace_on_cache.
  destruct st as [d t [b|] m n x ex e f lc]; reflexivity.
Qed.

Lemma trace_cases (message : string) (args : list PyObj) (exc_info : bool)
    (kwargs : list (string * PyObj)) (st : Interp) :
  trace message args exc_info kwargs st
  = if trace_on_value st then
      match format_message message args kwargs with
      | Ok text =>
          (Ok tt,
           if exc_info then
             set_linecache
               match current_exc st with
               | Some exc => print_exc_linecache exc (linecache st)
               | None => linecache st
               end
               (set_stderr
                  (stderr st ++ [(trace_prefix st +:+ text) +:+ nl;
                                 current_exc_text st])
                  (set_trace_on_cache (Some true) st))
           else
             set_stderr (stderr st ++ [(trace_prefix st +:+ text) +:+ nl])
               (set_trace_on_cache (Some true) st))
      | Raise e => (Raise e, set_trace_on_cache (Some true) st)
      end
    else (Ok tt, set_trace_on_cache (Some false) st).
Proof.
  assert (Hto : trace_on st
                = (Ok (trace_on_value st),
                   set_trace_on_cache (Some (trace_on_value st)) st)).
  { rewrite <- trace_on_state, trace_on_eq. reflexivity. }
  unfold trace. rewrite (bind_Ok _ _ _ _ _ Hto).
  destruct (trace_on_value st); [| reflexivity].
  unfold bind, lift, format_message, print_stderr, print_exc, ret, trace_prefix.
  destruct (str_mod_tuple message args) as [m1|e]; [| reflexivity].
  destruct (str_mod_dict m1 kwargs) as [m2|e]; [| reflexivity].
  destruct exc_info; simpl; unfold set_linecache, set_stderr; simpl.
  - rewrite <- app_assoc. reflexivity.
  - reflexivity.
Qed.

(** [trace] touches three things only: it appends to standard error, never
    changing what is already there; it fills the memo of [trace_on]; and,
    through [traceback.print_exc], it may change [linecache], which happens
    only when [exc_info] is set, the message has been written and an
    exception is being handled.  Settings, clock, thread name and frame
    mapping are as before.  It appends at most one write, or two with
    [exc_info], and none when it raises. *)
Theorem trace_frame_condition (message : string) (args : list PyObj)
    (exc_info : bool) (kwargs : list (string * PyObj)) (st : Interp) :
  exists added lc,
    snd (trace message args exc_info kwargs st)
    = mkInterp (PREFECT_DEBUG_MODE st) (PREFECT_TEST_MODE st)
        (Some (trace_on_value st)) (monotonic_repr st) (current_thread_name st)
        (current_exc_text st) (current_exc st) (stderr st ++ added)
        (current_frames st) lc
    /\ (length added <= if exc_info then 2 else 1)%nat
    /\ (added = [] \/ fst (trace message args exc_info kwargs st) = Ok tt)
    /\ (lc = linecache st
        \/ (exc_info = true /\ length added = 2%nat
            /\ exists exc, current_exc st = Some exc
                           /\ lc = print_exc_linecache exc (linecache st))).
Proof.
  rewrite trace_cases.
  assert (Hnone : forall b,
            set_trace_on_cache (Some b) st
            = mkInterp (PREFECT_DEBUG_MODE st) (PREFECT_TEST_MODE st)
                (Some b) (monotonic_repr st) (current_thread_name st)
                (current_exc_text st) (current_exc st) (stderr st ++ [])
                (current_frames st) (linecache st)).
  { intros b. rewrite app_nil_r. reflexivity. }
  destruct (trace_on_value st).
  - destruct (format_message message args kwargs) as [text|e].
    + destruct exc_info.
      * eexists _, _. split; [reflexivity |]. split; [simpl; lia |].
        split; [right; reflexivity |].
        destruct (current_exc st) as [exc|] eqn:Hexc.
        -- right. split; [reflexivity |]. split; [reflexivity |].
           exists exc. split; reflexivity.
        -- left. reflexivity.
      * eexists _, _. split; [reflexivity |]. split; [simpl; lia |].
        split; [right; reflexivity | left; reflexivity].
    + exists [], (linecache st). split; [apply Hnone |].
      split; [destruct exc_info; simpl; lia |]. split; [left | left]; reflexivity.
  - exists [], (linecache st). split; [apply Hnone |].
    split; [destruct exc_info; simpl; lia |]. split; [left | left]; reflexivity.
Qed.

Lemma trace_memo (message : string) (args : list PyObj) (exc_info : bool)
    (kwargs : list (string * PyObj)) (st : Interp) :
  trace_on_cache (snd (trace message args exc_info kwargs st))
  = Some (trace_on_value st).
Proof.
  rewrite trace_cases. destruct (trace_on_value st); [| reflexivity].
  destruct (format_message message args kwargs); [| reflexivity].
  destruct exc_info; reflexivity.
Qed.

(** After one call of [trace], with whatever outcome, the answer of
    [trace_on] is fixed: however the two settings are changed afterwards,
    [trace_on] returns what it returned first and changes nothing.  If that
    was false, every later [trace] is a complete no-op, also with debug mode
    switched on since; if it was true, later calls keep writing, also with
    both settings switched off since. *)
Theorem trace_on_fixed_after_first_call (message : string) (args : list PyObj)
    (exc_info : bool) (kwargs : list (string * PyObj)) (st : Interp)
    (debug test : bool) :
  let later := set_settings debug test (snd (trace message args exc_info kwargs st)) in
  trace_on later = (Ok (trace_on_value st), later)
  /\ (trace_on_value st = false ->
      forall message' args' exc_info' kwargs',
        trace message' args' exc_info' kwargs' later = (Ok tt, later))
  /\ (trace_on_value st = true ->
      forall message' args' exc_info' kwargs' text,
        format_message message' args' kwargs' = Ok text ->
        fst (trace message' args' exc_info' kwargs' later) = Ok tt
        /\ stderr (snd (trace message' args' exc_info' kwargs' later))
           = stderr later ++ ((trace_prefix later +:+ text) +:+ nl)
               :: (if exc_info' then [current_exc_text later] else [])).
Proof.
  intros later.
  assert (Hcache : trace_on_cache later = Some (trace_on_value st)).
  { subst later. simpl. apply trace_memo. }
  assert (Hvalue : trace_on_value later = trace_on_value st).
  { unfold trace_on_value at 1. rewrite Hcache. reflexivity. }
  assert (Hsame : forall b, trace_on_cache later = Some b ->
            set_trace_on_cache (Some b) later = later).
  { intros b Hb. unfold set_trace_on_cache. rewrite <- Hb.
    destruct later; reflexivity. }
  split; [unfold trace_on; rewrite Hcache; reflexivity |]. split.
  - intros Hoff message' args' exc_info' kwargs'.
    rewrite trace_cases, Hvalue, Hoff.
    rewrite Hsame by (rewrite Hcache, Hoff; reflexivity). reflexivity.
  - intros Hv message' args' exc_info' kwargs' text Hfmt.
    rewrite trace_cases, Hvalue, Hv, Hfmt.
    destruct exc_info'; split; reflexivity.
Qed.

(** *** Tracing and taking stacks do not disturb each other *)


(** *** The source line in a rendered frame *)

Lemma lstrip_split (s : string) :
  exists ws, s = ws +:+ lstrip s /\ all_space ws = true
             /\ starts_with_space (lstrip s) = false.
Proof.
  induction s as [|c s (ws & Hs & Hws & Hhead)].
  - exists EmptyString. repeat split.
  - simpl lstrip. destruct (isspace c) eqn:Hc.
    + exists (String c ws). split; [| split].
      * change (String c s = String c (ws +:+ lstrip s)). rewrite <- Hs. reflexivity.
      * simpl. rewrite Hc, Hws. reflexivity.
      * exact Hhead.
    + exists EmptyString. split; [reflexivity |]. split; [reflexivity |].
      simpl. exact Hc.
Qed.

(** The source line in a rendered frame is the line [linecache] returned
    with its leading whitespace removed and nothing else: the line is some
    whitespace followed by what is rendered, and what is rendered does not
    begin with whitespace. *)
Theorem repr_frame_drops_indentation (frame : Frame) (st : Interp) :
  exists line lc ws,
    linecache_getline (co_filename (f_code frame)) (_f_lineno frame)
      (f_globals frame) (linecache st) = (line, lc)
    /\ line = ws +:+ lstrip line
    /\ all_space ws = true
    /\ starts_with_space (lstrip line) = false
    /\ repr_frame frame st
       = (Ok (frame_text frame +:+ nl +:+ tab +:+ lstrip line), set_linecache lc st).
Proof.
  destruct (repr_frame_eq frame st) as (line & lc & Hget & Hrepr).
  destruct (lstrip_split line) as (ws & Hsplit & Hws & Hhead).
  exists line, lc, ws. auto.
Qed.

End WithRuntime.

(** *** On the example data *)

Import SimpleRuntime Examples MoreExamples.

Lemma f_lineno_first_line_or_reached_witness :
  f_lineno frame_unordered = None
  /\ 0 <= f_lasti frame_unordered
  /\ exists start,
       In (start, _f_lineno frame_unordered)
         (findlinestarts (f_code frame_unordered))
       /\ start <= f_lasti frame_unordered.
Proof.
  split; [reflexivity |]. split; [simpl; lia |].
  destruct (f_lineno_first_line_or_reached (RT := simple_runtime)
              frame_unordered eq_refl) as (_ & _ & Hreached).
  apply (Hreached 0 1 [(10, 2); (4, 3)]); [reflexivity | simpl; lia].
Defined.

(** Line starts out of order: the loop stops at offset 10 and never sees the
    start at offset 4. *)
Lemma f_lineno_stops_at_first_beyond_witness :
  f_lineno frame_unordered = None
  /\ Forall (fun p => fst p <= f_lasti frame_unordered) [(0, 1)]
  /\ _f_lineno frame_unordered = 1.
Proof.
  assert (Hpre : Forall (fun p => fst p <= f_lasti frame_unordered) [(0, 1)]).
  { repeat constructor. simpl. lia. }
  split; [reflexivity |]. split; [exact Hpre |].
  destruct (f_lineno_stops_at_first_beyond (RT := simple_runtime)
              frame_unordered [(0, 1)] eq_refl Hpre) as [Hstop _].
  apply (Hstop 10 2 [(4, 3)]); [reflexivity | simpl; lia].
Defined.

Lemma stack_for_threads_raises_iff_unstarted_witness :
  Forall (fun t => ident t <> None) [thread_main]
  /\ ident thread_unstarted = None
  /\ stack_for_threads [thread_main; thread_unstarted; thread_idle] interp0
     = (Raise (TypeError "'NoneType' object cannot be interpreted as an integer"),
        snd (stack_for_threads [thread_main] interp0)).
Proof.
  assert (Hpre : Forall (fun t => ident t <> None) [thread_main]).
  { repeat constructor. discriminate. }
  split; [exact Hpre |]. split; [reflexivity |].
  destruct (stack_for_threads_raises_iff_unstarted (RT := simple_runtime)
              [thread_main; thread_unstarted; thread_idle] interp0) as [_ Hraise].
  apply (Hraise [thread_main] thread_unstarted [thread_idle]);
    [reflexivity | exact Hpre | reflexivity].
Defined.

Lemma stack_for_threads_no_frames_witness :
  Forall (fun thread => ident thread <> None
                        /\ frames_get (current_frames interp0) (ident thread) = None)
    [thread_idle; thread_idle]
  /\ stack_for_threads [thread_idle; thread_idle] interp0
     = (Ok ["------ Call stack of Worker (0xff) -----"; "No stack frames found";
            "------ Call stack of Worker (0xff) -----"; "No stack frames found"],
        interp0).
Proof.
  assert (H : Forall (fun thread => ident thread <> None
                          /\ frames_get (current_frames interp0) (ident thread) = None)
                [thread_idle; thread_idle]).
  { repeat constructor; discriminate. }
  split; [exact H |].
  apply (stack_for_threads_no_frames (RT := simple_runtime) _ interp0 H).
Defined.

(** Debug mode is switched on after a first silent [trace]: still silent. *)
Lemma trace_on_fixed_after_first_call_witness :
  trace_on_value interp_quiet = false
  /\ trace (RT := simple_runtime) "late" [] false []
       (set_settings true true
          (snd (trace (RT := simple_runtime) "early" [] false [] interp_quiet)))
     = (Ok tt,
        set_settings true true
          (snd (trace (RT := simple_runtime) "early" [] false [] interp_quiet))).
Proof.
  split; [reflexivity |].
  destruct (trace_on_fixed_after_first_call (RT := simple_runtime)
              "early" [] false [] interp_quiet true true) as (_ & Hoff & _).
  apply Hoff. reflexivity.
Defined.

End InspectionMore.

(** ** Further properties of the checks of the web-server tests *)

Module WebserverMore.
Import Json Webserver Text.

Lemma append_empty_r (s : string) : s +:+ EmptyString = s.
Proof.
  induction s as [|c s IH]; [reflexivity |].
  change (String c (s +:+ EmptyString) = String c s). rewrite IH. reflexivity.
Qed.

Lemma append_char_assoc (cur : string) (c : ascii) (s : string) :
  (cur +:+ String c EmptyString) +:+ s = cur +:+ String c s.
Proof.
  induction cur as [|d cur IH]; [reflexivity |].
  change (String d ((cur +:+ String c EmptyString) +:+ s)
          = String d (cur +:+ String c s)).
  rewrite IH. reflexivity.
Qed.

Lemma no_slash_app (s t : string) :
  no_slash (s +:+ t) = no_slash s && no_slash t.
Proof.
  induction s as [|c s IH]; [reflexivity |].
  change (negb (Ascii.eqb c "/"%char) && no_slash (s +:+ t)
          = negb (Ascii.eqb c "/"%char) && no_slash s && no_slash t).
  rewrite IH, andb_assoc. reflexivity.
Qed.

Lemma split_slash_segment (s : string) :
  forall cur rest,
    no_slash s = true ->
    split_slash cur (s +:+ String "/"%char rest)
    = (cur +:+ s) :: split_slash EmptyString rest.
Proof.
  induction s as [|c s IH]; intros cur rest Hs.
  - change (split_slash cur (String "/"%char rest)
            = (cur +:+ EmptyString) :: split_slash EmptyString rest).
    rewrite append_empty_r. reflexivity.
  - simpl in Hs. apply andb_prop in Hs as [Hc Hs].
    change (split_slash cur (String c (s +:+ String "/"%char rest))
            = (cur +:+ String c s) :: split_slash EmptyString rest).
    simpl split_slash. destruct (Ascii.eqb c "/"%char); [discriminate |].
    rewrite (IH _ _ Hs), append_char_assoc. reflexivity.
Qed.

Lemma split_slash_last (s : string) :
  forall cur, no_slash s = true -> split_slash cur s = [cur +:+ s].
Proof.
  induction s as [|c s IH]; intros cur Hs.
  - simpl. rewrite append_empty_r. reflexivity.
  - simpl in Hs. apply andb_prop in Hs as [Hc Hs].
    simpl split_slash. destruct (Ascii.eqb c "/"%char); [discriminate |].
    rewrite (IH _ Hs), append_char_assoc. reflexivity.
Qed.

Lemma split_slash_pieces (s : string) :
  forall cur, no_slash cur = true ->
    Forall (fun piece => no_slash piece = true) (split_slash cur s).
Proof.
  induction s as [|c s IH]; intros cur Hcur; simpl.
  - constructor; [exact Hcur | constructor].
  - destruct (Ascii.eqb c "/"%char) eqn:Hc.
    + constructor; [exact Hcur | apply IH; reflexivity].
    + apply IH. rewrite no_slash_app, Hcur. simpl. rewrite Hc. reflexivity.
Qed.

(** Lines 49 and 54 of the test module: the id the test reads back from the
    path of a run route, [path.split("/")[2]], is the deployment id the path
    was built from exactly when that id holds no slash; the path then splits
    into the empty piece, [deployment], the id and [run]. *)
Theorem route_id_round_trip (id : string) :
  (no_slash id = true ->
   split_slash EmptyString (run_path id) = [EmptyString; "deployment"; id; "run"])
  /\ (nth 2 (split_slash EmptyString (run_path id)) EmptyString = id
      <-> no_slash id = true).
Proof.
  assert (Hsplit : no_slash id = true ->
            split_slash EmptyString (run_path id)
            = [EmptyString; "deployment"; id; "run"]).
  { intros Hid.
    change (run_path id)
      with (EmptyString +:+ String "/"%char
              ("deployment" +:+ String "/"%char (id +:+ String "/"%char "run"))).
    rewrite split_slash_segment by reflexivity.
    rewrite split_slash_segment by reflexivity.
    rewrite split_slash_segment by exact Hid.
    rewrite split_slash_last by reflexivity. reflexivity. }
  split; [exact Hsplit |]. split.
  - intros Hnth. rewrite <- Hnth.
    pose proof (split_slash_pieces (run_path id) EmptyString eq_refl) as Hpieces.
    rewrite List.Forall_forall in Hpieces.
    destruct (nth_in_or_default 2 (split_slash EmptyString (run_path id)) EmptyString)
      as [Hin | ->]; [apply Hpieces, Hin | reflexivity].
  - intros Hid. rewrite (Hsplit Hid). reflexivity.
Qed.

Lemma route_id_round_trip_witness :
  no_slash "d1" = true
  /\ nth 2 (split_slash EmptyString (run_path "d1")) EmptyString = "d1".
Proof.
  split; [reflexivity |].
  destruct (route_id_round_trip "d1") as [_ [_ H]]. apply H. reflexivity.
Defined.

End WebserverMore.
